(** * A shallow embedding of [main.py], the pull-request message generator.

    The program is a linear pipeline: parse one optional command-line
    argument, read three pieces of git state through [subprocess.run],
    interpolate them into a fixed prompt, send the prompt to a chat
    completion endpoint and print the reply.

    Python values are modelled as follows.
    - [str] is a list of Unicode code points ([pystr]); literals of the
      source are written as UTF-8 text and decoded by [u].
    - Everything the program observes outside its own text (sub-process
      results, the process environment, the remote service) is a field of
      the record [World].
    - Effects are recorded in a trace of [event]s carried by a small
      writer-and-error monad [M]. *)

From Stdlib Require Import List NArith ZArith Bool Lia String Ascii.
From Stdlib Require DecimalString.
Import ListNotations.

Set Implicit Arguments.
Local Open Scope N_scope.
Local Open Scope list_scope.

(** ** Python strings *)

Module PyStr.

(** A Python [str]: a sequence of Unicode code points. *)
Definition pystr : Type := list N.

Fixpoint bytes_of_string (s : string) : list N :=
  match s with
  | EmptyString => []
  | String a r => N_of_ascii a :: bytes_of_string r
  end.

(** UTF-8 decoding of the bytes of a source literal. *)
Fixpoint utf8_decode (bs : list N) : pystr :=
  match bs with
  | [] => []
  | b0 :: r0 =>
    if b0 <? 128 then b0 :: utf8_decode r0
    else if b0 <? 224 then
      match r0 with
      | b1 :: r1 => ((b0 mod 32) * 64 + b1 mod 64) :: utf8_decode r1
      | _ => []
      end
    else if b0 <? 240 then
      match r0 with
      | b1 :: b2 :: r2 =>
        ((b0 mod 16) * 4096 + (b1 mod 64) * 64 + b2 mod 64) :: utf8_decode r2
      | _ => []
      end
    else
      match r0 with
      | b1 :: b2 :: b3 :: r3 =>
        ((b0 mod 8) * 262144 + (b1 mod 64) * 4096 + (b2 mod 64) * 64 + b3 mod 64)
          :: utf8_decode r3
      | _ => []
      end
  end.

(** [u "text"] is the Python literal ["text"]. *)
Definition u (s : string) : pystr := utf8_decode (bytes_of_string s).

Definition eqb (s t : pystr) : bool :=
  if list_eq_dec N.eq_dec s t then true else false.

(** [s.startswith(p)] *)
Fixpoint startswith (s p : pystr) : bool :=
  match p, s with
  | [], _ => true
  | c :: p', d :: s' => (c =? d) && startswith s' p'
  | _ :: _, [] => false
  end.

(** [p in s] *)
Fixpoint contains (s p : pystr) : bool :=
  startswith s p ||
  match s with
  | [] => false
  | _ :: s' => contains s' p
  end.

(** The declarative reading of [p in s]: [p] occurs verbatim inside [s]. *)
Definition Substring (p s : pystr) : Prop :=
  exists pre post, s = pre ++ p ++ post.

(** [str.isspace] on one code point (CPython's [_PyUnicode_IsWhitespace]). *)
Definition isspace (c : N) : bool :=
  ((9 <=? c) && (c <=? 13)) || ((28 <=? c) && (c <=? 32)) ||
  (c =? 133) || (c =? 160) || (c =? 5760) ||
  ((8192 <=? c) && (c <=? 8202)) ||
  (c =? 8232) || (c =? 8233) || (c =? 8239) || (c =? 8287) || (c =? 12288).

Fixpoint lstrip (s : pystr) : pystr :=
  match s with
  | [] => []
  | c :: r => if isspace c then lstrip r else s
  end.

Definition rstrip (s : pystr) : pystr := rev (lstrip (rev s)).

(** [s.strip()] *)
Definition strip (s : pystr) : pystr := rstrip (lstrip s).

(** Line boundaries of [str.splitlines], other than the pair CR LF. *)
Definition is_linebreak (c : N) : bool :=
  ((10 <=? c) && (c <=? 13)) || ((28 <=? c) && (c <=? 30)) ||
  (c =? 133) || (c =? 8232) || (c =? 8233).

(** [s.splitlines()]; [cur] is the line being read, reversed. *)
Fixpoint splitlines_from (cur : pystr) (s : pystr) : list pystr :=
  match s with
  | [] => match cur with [] => [] | _ => [rev cur] end
  | c :: r =>
    if c =? 13 then
      match r with
      | d :: r' =>
        if d =? 10 then rev cur :: splitlines_from [] r'
        else rev cur :: splitlines_from [] r
      | [] => rev cur :: splitlines_from [] r
      end
    else if is_linebreak c then rev cur :: splitlines_from [] r
    else splitlines_from (c :: cur) r
  end.

Definition splitlines (s : pystr) : list pystr := splitlines_from [] s.

(** [s.split(sep)] for a one-character separator. *)
Fixpoint split_from (sep : N) (cur : pystr) (s : pystr) : list pystr :=
  match s with
  | [] => [rev cur]
  | c :: r =>
    if c =? sep then rev cur :: split_from sep [] r
    else split_from sep (c :: cur) r
  end.

Definition split (sep : N) (s : pystr) : list pystr := split_from sep [] s.

(** [s * n] *)
Fixpoint repeat_str (s : pystr) (n : nat) : pystr :=
  match n with
  | O => []
  | S k => s ++ repeat_str s k
  end.

(** [str(n)] for a non-negative [int]. *)
Definition str_of_nat (n : nat) : pystr :=
  bytes_of_string (DecimalString.NilEmpty.string_of_uint (Nat.to_uint n)).

End PyStr.
Import PyStr.

(** ** The world outside the program *)

(** What the operating system answers to [subprocess.run(argv, ...)]: the
    child ran and exited with a status, or it could not be started. *)
Inductive spawn_error : Type :=
| NoSuchFile                     (* the executable is not on the path *)
| OtherSpawnError (msg : pystr). (* any other failure of [subprocess.run] *)

Inductive proc_outcome : Type :=
| Exited (returncode : Z) (out err : pystr)
| NotStarted (e : spawn_error).

(** One entry of the [messages] argument of the chat completion call. *)
Record message : Type := Message { role : pystr; content : pystr }.

(** The class of an exception raised by the client library, as far as the
    program and the interpreter tell classes apart: a class deriving from
    [Exception] (transport, authentication, status and validation errors all
    are), [KeyboardInterrupt], [SystemExit] with the exit status its code
    stands for, or another class deriving from [BaseException] only. *)
Inductive raised_class : Type :=
| ExceptionClass
| KeyboardInterrupt
| SystemExitClass (status : Z)
| OtherBaseException.

(** An exception raised while the client is constructed, by the chat
    completion request or while its reply is read: its class and
    [str(e)]. *)
Record remote_error : Type :=
  RemoteError { raised_class_of : raised_class; error_str : pystr }.

(** [isinstance(e, Exception)] *)
Definition derives_from_Exception (e : remote_error) : bool :=
  match raised_class_of e with
  | ExceptionClass => true
  | _ => false
  end.

(** What the remote service answers: a response whose [choices] each carry
    [message.content] (a [str], or [None]), or an exception. *)
Inductive chat_outcome : Type :=
| Response (choices : list (option pystr))
| ChatRaises (e : remote_error).

Record World : Type := {
  (** result of running a command line *)
  run_process : list pystr -> proc_outcome;
  (** the process environment as [os.getenv] sees it, after [load_dotenv()] *)
  environ : pystr -> option pystr;
  (** what [OpenAI(api_key=...)] does with a credential: [None] when the
      client is constructed, the exception when the constructor raises *)
  new_client : pystr -> option remote_error;
  (** the chat completion endpoint, by credential, model and messages *)
  chat_service : pystr -> pystr -> list message -> chat_outcome;
  (** argparse's regular expression for arguments that look like negative
      numbers *)
  negative_number_matcher : pystr -> bool
}.

(** ** Effects *)

Inductive event : Type :=
| Stdout (line : pystr)                       (* [print(line)] *)
| Subprocess (argv : list pystr)              (* [subprocess.run(argv, ...)] *)
| Getenv (name : pystr)                       (* [os.getenv(name)] *)
| NewClient (api_key : pystr)                 (* [OpenAI(api_key=...)], no network *)
| ChatCompletion (api_key model : pystr) (messages : list message)
                                              (* the network call *)
| ArgparseHelp                                (* argparse prints the help text *)
| ArgparseUsageError.                         (* argparse prints a usage error *)

Inductive result (E A : Type) : Type :=
| Return (a : A)
| Raise (e : E).
Arguments Return {E A} a.
Arguments Raise {E A} e.

(** A computation: the events it performed, in order, and how it ended. *)
Definition M (E A : Type) : Type := (list event * result E A)%type.

Definition ret {E A} (a : A) : M E A := ([], Return a).

Definition raise {E A} (e : E) : M E A := ([], Raise e).

Definition emit {E} (ev : event) : M E unit := ([ev], Return tt).

Definition bind {E A B} (m : M E A) (k : A -> M E B) : M E B :=
  match m with
  | (tr, Return a) => let (tr', r) := k a in (tr ++ tr', r)
  | (tr, Raise e) => (tr, Raise e)
  end.

Notation "x <- m ;; k" := (bind m (fun x => k))
  (at level 61, m at next level, right associativity).
Notation "m ;; k" := (bind m (fun _ => k))
  (at level 61, right associativity).

(** [try: body except ...: handler]; [handler e = None] when no [except]
    clause matches [e]. *)
Definition try_except {E A} (body : M E A) (handler : E -> option (M E A))
  : M E A :=
  match body with
  | (tr, Return a) => (tr, Return a)
  | (tr, Raise e) =>
    match handler e with
    | Some h => let (tr', r) := h in (tr ++ tr', r)
    | None => (tr, Raise e)
    end
  end.

(** Embedding of one exception type into a larger one. *)
Definition lift {E E' A} (inj : E -> E') (m : M E A) : M E' A :=
  match m with
  | (tr, Return a) => (tr, Return a)
  | (tr, Raise e) => (tr, Raise (inj e))
  end.

Definition trace {E A} (m : M E A) : list event := fst m.
Definition outcome {E A} (m : M E A) : result E A := snd m.

Definition print {E} (line : pystr) : M E unit := emit (Stdout line).

(** ** Repository Inspector: [get_git_info] *)

Inductive run_exn : Type :=
| CalledProcessError (returncode : Z) (cmd : list pystr) (output stderr : pystr)
| FileNotFoundError
| RunError (msg : pystr).

Record CompletedProcess : Type :=
  { args : list pystr; p_returncode : Z; stdout : pystr; p_stderr : pystr }.

(** [subprocess.run(argv, capture_output=True, text=True, check=True)] *)
Definition subprocess_run (w : World) (argv : list pystr)
  : M run_exn CompletedProcess :=
  emit (Subprocess argv) ;;
  match run_process w argv with
  | Exited rc out err =>
    if (rc =? 0)%Z
    then ret {| args := argv; p_returncode := rc; stdout := out; p_stderr := err |}
    else raise (CalledProcessError rc argv out err)
  | NotStarted NoSuchFile => raise FileNotFoundError
  | NotStarted (OtherSpawnError msg) => raise (RunError msg)
  end.

Record GitInfo : Type :=
  { branch_name : pystr; commit_logs : pystr; code_diff : pystr }.

Definition rev_parse_cmd : list pystr :=
  [u "git"; u "rev-parse"; u "--abbrev-ref"; u "HEAD"].

Definition log_cmd (base_branch : pystr) : list pystr :=
  [u "git"; u "log"; base_branch ++ u "..HEAD"; u "--oneline";
   u "--pretty=format:%s"].

Definition diff_cmd (base_branch : pystr) : list pystr :=
  [u "git"; u "diff"; base_branch ++ u "...HEAD"].

Definition GIT_COMMAND_FAILED : pystr :=
  u "Git 명령어 실행 중 오류가 발생했습니다: ".

Definition GIT_NOT_INSTALLED : pystr :=
  u "Git이 설치되어 있지 않거나 경로에 없습니다. Git을 설치해주세요.".

Definition get_git_info (w : World) (base_branch : pystr)
  : M run_exn (option GitInfo) :=
  try_except
    (p1 <- subprocess_run w rev_parse_cmd ;;
     let branch_name := strip (stdout p1) in
     p2 <- subprocess_run w (log_cmd base_branch) ;;
     let commit_logs := strip (stdout p2) in
     p3 <- subprocess_run w (diff_cmd base_branch) ;;
     let code_diff := stdout p3 in
     ret (Some {| branch_name := branch_name;
                  commit_logs := commit_logs;
                  code_diff := code_diff |}))
    (fun e =>
       match e with
       | CalledProcessError _ _ _ stderr =>
         Some (print (GIT_COMMAND_FAILED ++ stderr) ;; ret None)
       | FileNotFoundError =>
         Some (print GIT_NOT_INSTALLED ;; ret None)
       | RunError _ => None
       end).

(** ** Prompt Composer *)

Definition PROMPT_HEAD : pystr := u "
        당신은 뛰어난 개발자로, Git 변경사항을 보고 명확하고 간결한 GitHub Pull Request 메시지를 한국어로 작성하는 전문가입니다.

        아래 제공되는 브랜치 이름, 커밋 로그, 그리고 코드 변경사항(diff)을 바탕으로 다음 형식에 맞춰 PR 메시지를 생성해주세요.

        **형식:**
        ### 제목
        [기능/수정] 한 줄로 핵심 변경 내용 요약

        ### 설명
        - 이 PR이 필요한 이유와 배경을 설명해주세요.
        - 어떤 문제를 해결하는지 작성해주세요.

        ### 주요 변경 사항
        - 코드 변경 사항을 구체적인 항목으로 나눠서 요약해주세요.

        ---

        **[입력 정보]**
        **브랜치 이름:**
        ".

Definition PROMPT_LOGS : pystr := u "

        **커밋 로그:**
        ```
        ".

Definition PROMPT_DIFF : pystr := u "
        ```

        **코드 변경 사항(diff):**
        ```diff
        ".

Definition PROMPT_TAIL : pystr := u "
        ```
    ".

(** The f-string assigned to [prompt] in [generate_pr_message]. *)
Definition compose_prompt (git_info : GitInfo) : pystr :=
  PROMPT_HEAD ++ branch_name git_info ++
  PROMPT_LOGS ++ commit_logs git_info ++
  PROMPT_DIFF ++ code_diff git_info ++
  PROMPT_TAIL.

Definition TITLE_HEADER : pystr := u "### 제목".
Definition DESCRIPTION_HEADER : pystr := u "### 설명".
Definition KEY_CHANGES_HEADER : pystr := u "### 주요 변경 사항".

(** ** Completion Client: [generate_pr_message] *)

Inductive api_exn : Type :=
| IndexError                      (* [response.choices[0]] on an empty list *)
| Remote (e : remote_error).

(** [isinstance(e, Exception)] *)
Definition is_Exception (e : api_exn) : bool :=
  match e with
  | IndexError => true
  | Remote r => derives_from_Exception r
  end.

(** [str(e)] *)
Definition exn_str (e : api_exn) : pystr :=
  match e with
  | IndexError => u "list index out of range"
  | Remote r => error_str r
  end.

Definition MISSING_KEY_MESSAGE : pystr :=
  u "오류: GEMINI_API_KEY가 설정되지 않았습니다. .env 파일을 확인해주세요.".

Definition CALL_FAILED : pystr :=
  u "Gemini API 호출 중 오류가 발생했습니다: ".

Definition MODEL : pystr := u "gpt-4.1-mini".

Definition getenv {E} (w : World) (name : pystr) : M E (option pystr) :=
  emit (Getenv name) ;; ret (environ w name).

(** Truth value of [os.getenv]'s result: [None] and the empty string are
    false. *)
Definition truthy (v : option pystr) : bool :=
  match v with
  | None => false
  | Some [] => false
  | Some (_ :: _) => true
  end.

(** [OpenAI(api_key=api_key)]: the constructor sends nothing, and may
    raise. *)
Definition OpenAI (w : World) (api_key : pystr) : M api_exn pystr :=
  emit (NewClient api_key) ;;
  match new_client w api_key with
  | None => ret api_key
  | Some e => raise (Remote e)
  end.

(** [client.chat.completions.create(model=..., messages=...)] *)
Definition chat_completions_create (w : World) (client model : pystr)
    (messages : list message) : M api_exn (list (option pystr)) :=
  emit (ChatCompletion client model messages) ;;
  match chat_service w client model messages with
  | Response choices => ret choices
  | ChatRaises e => raise (Remote e)
  end.

(** [choices[0]] *)
Definition first_choice (choices : list (option pystr))
  : M api_exn (option pystr) :=
  match choices with
  | [] => raise IndexError
  | c :: _ => ret c
  end.

(** The value returned is a [str], or [None] when the reply carries no
    content. *)
Definition generate_pr_message (w : World) (git_info : GitInfo)
  : M api_exn (option pystr) :=
  api_key <- getenv w (u "OPENAI_API_KEY") ;;
  if negb (truthy api_key) then ret (Some MISSING_KEY_MESSAGE)
  else
    client <- OpenAI w (match api_key with Some k => k | None => [] end) ;;
    let prompt := compose_prompt git_info in
    try_except
      (response <- chat_completions_create w client MODEL
                     [{| role := u "user"; content := prompt |}] ;;
       first_choice response)
      (fun e =>
         if is_Exception e
         then Some (ret (Some (CALL_FAILED ++ exn_str e)))
         else None).

(** ** CLI Driver *)

(** *** The argument parser

    [argparse.ArgumentParser(description=...)] with the single
    [add_argument('base_branch', type=str, nargs='?', default='main')].
    The parser keeps argparse's defaults: prefix character [-], abbreviated
    long options, and the automatically added [-h]/[--help] option, which is
    its only optional action. *)

Definition DASH : N := 45.
Definition EQUALS : N := 61.
Definition SPACE : N := 32.

(** The keys of [parser._option_string_actions]. *)
Definition option_strings : list pystr := [u "-h"; u "--help"].

Definition is_option_string (s : pystr) : bool :=
  existsb (eqb s) option_strings.

(** [s.split('=', 1)] when ['=' in s]. *)
Fixpoint split_equals (s : pystr) : option (pystr * pystr) :=
  match s with
  | [] => None
  | c :: r =>
    if c =? EQUALS then Some ([], r)
    else match split_equals r with
         | Some (a, b) => Some (c :: a, b)
         | None => None
         end
  end.

(** What [_parse_optional] answers for an argument that is not positional:
    the option string it resolved to (always of the help action here) with
    the explicit argument glued to it, or no action at all. *)
Inductive option_tuple : Type :=
| HelpAction (option_string : pystr) (explicit_arg : option pystr)
| NoAction.

(** [_get_option_tuples]: the options an abbreviated or glued argument may
    stand for. *)
Definition get_option_tuples (arg_string : pystr) : list option_tuple :=
  match arg_string with
  | c0 :: c1 :: rest =>
    if c1 =? DASH then
      let '(option_prefix, explicit_arg) :=
        match split_equals arg_string with
        | Some (a, b) => (a, Some b)
        | None => (arg_string, None)
        end in
      map (fun o => HelpAction o explicit_arg)
          (filter (fun o => startswith o option_prefix) option_strings)
    else
      flat_map
        (fun o =>
           if eqb o [c0; c1] then [HelpAction o (Some rest)]
           else if startswith o arg_string then [HelpAction o None]
           else [])
        option_strings
  | _ => []
  end.

Inductive arg_class : Type :=
| Positional
| Optional (t : option_tuple)
| Ambiguous.

(** [_parse_optional] *)
Definition parse_optional (w : World) (arg_string : pystr) : arg_class :=
  match arg_string with
  | [] => Positional
  | c0 :: rest =>
    if negb (c0 =? DASH) then Positional
    else if is_option_string arg_string then
      Optional (HelpAction arg_string None)
    else
      match rest with
      | [] => Positional
      | _ :: _ =>
        let glued :=
          match split_equals arg_string with
          | Some (o, e) =>
            if is_option_string o then Some (HelpAction o (Some e)) else None
          | None => None
          end in
        match glued with
        | Some t => Optional t
        | None =>
          match get_option_tuples arg_string with
          | _ :: _ :: _ => Ambiguous
          | [t] => Optional t
          | [] =>
            if negative_number_matcher w arg_string then Positional
            else if existsb (N.eqb SPACE) arg_string then Positional
            else Optional NoAction
          end
        end
      end
  end.

(** One letter of the pattern argparse builds from the command line:
    [A] (an argument), [-] (the first [--]) or [O] (an option). *)
Inductive pattern : Type :=
| PArg
| PDashes
| POpt (t : option_tuple).

(** The first loop of [_parse_known_args]; [None] when an abbreviation is
    ambiguous. *)
Fixpoint classify (w : World) (arg_strings : list pystr)
  : option (list pattern) :=
  match arg_strings with
  | [] => Some []
  | a :: r =>
    if eqb a (u "--") then Some (PDashes :: map (fun _ => PArg) r)
    else
      match parse_optional w a, classify w r with
      | Ambiguous, _ => None
      | _, None => None
      | Positional, Some ps => Some (PArg :: ps)
      | Optional t, Some ps => Some (POpt t :: ps)
      end
  end.

(** A run of single-letter flags glued to [-h]: every further letter must
    itself be an option of the parser. *)
Fixpoint flag_chain (explicit_arg : pystr) : bool :=
  match explicit_arg with
  | [] => false
  | c :: r =>
    is_option_string [DASH; c] &&
    match r with
    | [] => true
    | _ :: _ => flag_chain r
    end
  end.

(** [consume_optional] on a help action: [true] when the help action is
    taken, [false] when the explicit argument is rejected. *)
Definition help_taken (option_string : pystr) (explicit_arg : option pystr)
  : bool :=
  match explicit_arg with
  | None => true
  | Some e =>
    match option_string with
    | _ :: c1 :: _ => negb (c1 =? DASH) && flag_chain e
    | _ => false
    end
  end.

(** The optionals of the command line in order: the first help action that
    is taken exits with status 0, the first rejected one with status 2;
    unknown options are set aside. *)
Fixpoint consume_optionals (ps : list pattern) : option Z :=
  match ps with
  | [] => None
  | POpt (HelpAction o e) :: r =>
    if help_taken o e then Some 0%Z else Some 2%Z
  | _ :: r => consume_optionals r
  end.

Definition is_unknown_option (p : pattern) : bool :=
  match p with
  | POpt NoAction => true
  | _ => false
  end.

Fixpoint count_dashes (ps : list pattern) : nat :=
  match ps with
  | PDashes :: r => S (count_dashes r)
  | _ => O
  end.

(** Number of pattern letters the positional [base_branch] takes from the
    front; its regular expression reads: any dashes, at most one argument,
    any dashes. *)
Definition match_base_branch (ps : list pattern) : nat :=
  let d1 := count_dashes ps in
  match skipn d1 ps with
  | PArg :: r => d1 + 1 + count_dashes r
  | _ => d1
  end%nat.

(** [arg_strings.remove('--')], when present. *)
Fixpoint remove_dashes (arg_strings : list pystr) : list pystr :=
  match arg_strings with
  | [] => []
  | a :: r => if eqb a (u "--") then r else a :: remove_dashes r
  end.

Inductive exn : Type :=
| Inspector (e : run_exn)
| Completion (e : api_exn)
| SystemExit (code : Z).

Record Namespace : Type := { base_branch : pystr }.

Definition argparse_exit (code : Z) : M exn Namespace :=
  emit (if (code =? 0)%Z then ArgparseHelp else ArgparseUsageError) ;;
  raise (SystemExit code).

(** [parser.parse_args()] on [sys.argv[1:]]. *)
Definition parse_args (w : World) (arg_strings : list pystr)
  : M exn Namespace :=
  match classify w arg_strings with
  | None => argparse_exit 2
  | Some ps =>
    match consume_optionals ps with
    | Some code => argparse_exit code
    | None =>
      if existsb is_unknown_option ps then argparse_exit 2
      else
        let n := match_base_branch ps in
        match skipn n arg_strings with
        | _ :: _ => argparse_exit 2     (* unrecognized arguments *)
        | [] =>
          match remove_dashes (firstn n arg_strings) with
          | [] => ret {| base_branch := u "main" |}
          | [a] => ret {| base_branch := a |}
          | _ :: _ :: _ => argparse_exit 2
          end
        end
    end
  end.

(** *** The [__main__] block *)

(** [str(x)] for the value returned by [generate_pr_message]. *)
Definition str_of_reply (x : option pystr) : pystr :=
  match x with
  | Some s => s
  | None => u "None"
  end.

Definition NL : pystr := [10].

(** [len(git_info['commit_logs'].splitlines())] *)
Definition commit_count (git_info : GitInfo) : nat :=
  List.length (splitlines (commit_logs git_info)).

Definition main (w : World) (argv : list pystr) : M exn unit :=
  args <- parse_args w argv ;;
  let BASE_BRANCH := base_branch args in
  print (u "✅ 기준 브랜치: '" ++ BASE_BRANCH ++ u "'") ;;
  print (u "Git 정보를 수집 중입니다...") ;;
  git_info <- lift Inspector (get_git_info w BASE_BRANCH) ;;
  match git_info with
  | Some git_info =>
    print (u "브랜치: " ++ branch_name git_info) ;;
    print (u "커밋 수: " ++ str_of_nat (commit_count git_info) ++ u "개") ;;
    print (NL ++ u "OPENAI API를 통해 PR 메시지를 생성합니다...") ;;
    pr_message <- lift Completion (generate_pr_message w git_info) ;;
    print (NL ++ repeat_str (u "=") 50) ;;
    print (u "✨ 생성된 PR 메시지 ✨") ;;
    print (repeat_str (u "=") 50) ;;
    print (str_of_reply pr_message) ;;
    print (repeat_str (u "=") 50)
  | None => ret tt
  end.

(** The status of the process as a POSIX shell reports it: 0 when the
    script runs to its end; the code of a [SystemExit]; 130 after an uncaught
    [KeyboardInterrupt], on which the interpreter ends itself with SIGINT;
    and 1 after any other uncaught exception. *)
Definition exit_status (r : result exn unit) : Z :=
  match r with
  | Return _ => 0
  | Raise (SystemExit code) => code
  | Raise (Completion (Remote e)) =>
    match raised_class_of e with
    | KeyboardInterrupt => 130
    | SystemExitClass status => status
    | ExceptionClass | OtherBaseException => 1
    end
  | Raise (Completion IndexError) => 1
  | Raise (Inspector _) => 1
  end%Z.

(** [sys.exit] is never called by the script itself: an explicit exit code
    can only come from argparse. *)
Definition explicit_exit (r : result exn unit) : bool :=
  match r with
  | Raise (SystemExit _) => true
  | _ => false
  end.

(** ** Properties of the events *)

Definition is_network_call (ev : event) : bool :=
  match ev with
  | ChatCompletion _ _ _ => true
  | _ => false
  end.

Definition is_completion_client_event (ev : event) : bool :=
  match ev with
  | Getenv _ | NewClient _ | ChatCompletion _ _ _ => true
  | _ => false
  end.

Definition network_calls (tr : list event) : nat :=
  List.length (filter is_network_call tr).

Fixpoint subprocess_calls (tr : list event) : list (list pystr) :=
  match tr with
  | [] => []
  | Subprocess argv :: r => argv :: subprocess_calls r
  | _ :: r => subprocess_calls r
  end.

Fixpoint printed (tr : list event) : list pystr :=
  match tr with
  | [] => []
  | Stdout s :: r => s :: printed r
  | _ :: r => printed r
  end.

(** ** Vocabulary of the specification *)

(** A failure of a git command that [get_git_info] handles: a non-zero exit
    status, or a missing executable. *)
Definition handled_failure (o : proc_outcome) : bool :=
  match o with
  | Exited rc _ _ => negb (rc =? 0)%Z
  | NotStarted NoSuchFile => true
  | NotStarted (OtherSpawnError _) => false
  end.

Definition succeeded (o : proc_outcome) : bool :=
  match o with
  | Exited rc _ _ => (rc =? 0)%Z
  | NotStarted _ => false
  end.

(** The Repository Inspector fails: the first of its commands that does not
    succeed is a handled failure. *)
Definition inspector_fails (w : World) (base : pystr) : bool :=
  handled_failure (run_process w rev_parse_cmd) ||
  succeeded (run_process w rev_parse_cmd) &&
  (handled_failure (run_process w (log_cmd base)) ||
   succeeded (run_process w (log_cmd base)) &&
   handled_failure (run_process w (diff_cmd base))).

(** The three version-control commands of a run against [base], in order. *)
Definition git_commands (base : pystr) : list (list pystr) :=
  [rev_parse_cmd; log_cmd base; diff_cmd base].

(** The number of newline-separated entries of a string, as the
    specification words it: none in the empty string, otherwise one more than
    the number of newline characters. *)
Definition newline_entries (s : pystr) : nat :=
  match s with
  | [] => O
  | _ :: _ => List.length (split 10 s)
  end.

(** Whether the piece being read when the text ends is empty. *)
Fixpoint ends_on_boundary (at_boundary : bool) (s : pystr) : bool :=
  match s with
  | [] => at_boundary
  | c :: r => ends_on_boundary (c =? 10) r
  end.

(** Every line boundary of [s] is a newline character. *)
Definition only_newlines (s : pystr) : Prop :=
  forall c, In c s -> is_linebreak c = true -> c = 10.

(** [s] neither starts nor ends with a whitespace character. *)
Definition unpadded (s : pystr) : bool :=
  match s with
  | [] => true
  | c :: _ => negb (isspace c) && negb (isspace (last s c))
  end.

(** The exception, if any, raised inside the [try] block of
    [generate_pr_message] when the credential is [key]; there is none when
    the block is not reached because the constructor of the client raised. *)
Definition try_block_error (w : World) (key : pystr) (git_info : GitInfo)
  : option api_exn :=
  match new_client w key with
  | Some _ => None
  | None =>
    match chat_service w key MODEL
            [{| role := u "user"; content := compose_prompt git_info |}] with
    | ChatRaises e => Some (Remote e)
    | Response [] => Some IndexError
    | Response (_ :: _) => None
    end
  end.

(** Whether [generate_pr_message] sends its request: the credential is a
    non-empty string and the client is constructed from it. *)
Definition request_is_sent (w : World) : bool :=
  match environ w (u "OPENAI_API_KEY") with
  | Some (c :: key) =>
    match new_client w (c :: key) with
    | None => true
    | Some _ => false
    end
  | _ => false
  end.

(** The commands of a list up to and including the first one that does not
    succeed. *)
Fixpoint until_first_failure (w : World) (cmds : list (list pystr))
  : list (list pystr) :=
  match cmds with
  | [] => []
  | c :: r =>
    if succeeded (run_process w c) then c :: until_first_failure w r
    else [c]
  end.




(** ** Concrete worlds *)

Definition cmd_eqb (a b : list pystr) : bool :=
  if list_eq_dec (list_eq_dec N.eq_dec) a b then true else false.

(** A regular expression engine restricted to ASCII digits: a dash
    followed by digits, or by digits, a dot and digits. *)
Definition is_digit (c : N) : bool := (48 <=? c) && (c <=? 57).

Fixpoint all_digits (s : pystr) : bool :=
  match s with
  | [] => true
  | c :: r => is_digit c && all_digits r
  end.

Fixpoint digits_dot_digits (s : pystr) : bool :=
  match s with
  | [] => false
  | c :: r =>
    if c =? 46 then match r with [] => false | _ => all_digits r end
    else is_digit c && digits_dot_digits r
  end.

Definition ascii_negative_number (s : pystr) : bool :=
  match s with
  | c :: (_ :: _) as r =>
    (c =? DASH) && (all_digits r || digits_dot_digits r)
  | _ => false
  end.

(** A repository on branch [branch] whose log and diff against [main] are
    [log] and [diff]; any other command line fails as git does on an unknown
    revision.  The credential is [key] and the service answers [chat]. *)
Definition repo_world (branch log diff : pystr) (key : option pystr)
    (chat : chat_outcome) : World :=
  {| run_process := fun argv =>
       if cmd_eqb argv rev_parse_cmd then Exited 0 (branch ++ NL) []
       else if cmd_eqb argv (log_cmd (u "main")) then Exited 0 log []
       else if cmd_eqb argv (diff_cmd (u "main")) then Exited 0 diff []
       else Exited 128 [] (u "fatal: bad revision");
     environ := fun name =>
       if eqb name (u "OPENAI_API_KEY") then key else None;
     new_client := fun _ => None;
     chat_service := fun _ _ _ => chat;
     negative_number_matcher := ascii_negative_number |}.

(** The GitInfo of the specification's example. *)
Definition example_info : GitInfo :=
  {| branch_name := u "feature/x";
     commit_logs := u "fix bug";
     code_diff := u "--- a" ++ NL ++ u "+++ b" ++ NL |}.

Definition example_world (key : option pystr) (chat : chat_outcome) : World :=
  repo_world (u "feature/x") (u "fix bug") (code_diff example_info) key chat.

(** A machine without git. *)
Definition no_git_world : World :=
  {| run_process := fun _ => NotStarted NoSuchFile;
     environ := fun _ => Some (u "sk-test");
     new_client := fun _ => None;
     chat_service := fun _ _ _ => Response [Some (u "ok")];
     negative_number_matcher := ascii_negative_number |}.

(** An error of the client library raised by its constructor. *)
Definition client_error : remote_error :=
  {| raised_class_of := ExceptionClass;
     error_str := u "Invalid client configuration." |}.

(** The example repository on a machine where the client cannot be
    constructed. *)
Definition no_client_world : World :=
  {| run_process := run_process (example_world None (Response []));
     environ := fun _ => Some (u "sk-test");
     new_client := fun _ => Some client_error;
     chat_service := fun _ _ _ => Response [Some (u "ok")];
     negative_number_matcher := ascii_negative_number |}.

(** A connection error of the client library. *)
Definition connection_error : remote_error :=
  {| raised_class_of := ExceptionClass; error_str := u "Connection error." |}.

(** Two commits on the example branch. *)
Definition two_commits_info : GitInfo :=
  {| branch_name := u "feature/x";
     commit_logs := u "fix bug" ++ NL ++ u "add test";
     code_diff := code_diff example_info |}.

Definition two_commits_world : World :=
  repo_world (u "feature/x") (commit_logs two_commits_info ++ NL)
             (code_diff example_info) None (Response []).

(** One commit whose subject holds a form feed between [a] and [b]. *)
Definition formfeed_world : World :=
  repo_world (u "topic") [97; 12; 98] [] None (Response []).

(** A branch whose name ends with a no-break space (U+00A0). *)
Definition nbsp_branch : pystr := [120; 160].

Definition nbsp_world : World :=
  repo_world nbsp_branch (u "fix bug") [] None (Response []).

Arguments u : simpl never.

(** Whether [splitlines] is between two lines when the text ends: the text
    read so far is empty or ends with a line boundary. *)
Fixpoint ends_on_linebreak (at_boundary : bool) (s : pystr) : bool :=
  match s with
  | [] => at_boundary
  | c :: r => ends_on_linebreak (is_linebreak c) r
  end.

(** A machine on which git is installed but may not be executed: starting
    it fails with an error other than a missing file. *)
Definition locked_git_world : World :=
  {| run_process := fun _ => NotStarted (OtherSpawnError (u "Permission denied"));
     environ := fun _ => Some (u "sk-test");
     new_client := fun _ => None;
     chat_service := fun _ _ _ => Response [Some (u "ok")];
     negative_number_matcher := ascii_negative_number |}.

(** ** Proof automation *)

Ltac unfold_inspector :=
  unfold get_git_info, subprocess_run, try_except, bind, emit, ret, raise,
    print.

(** Case analysis on what the three commands answer, in the order the
    function runs them. *)
Ltac run_cases w b :=
  let go c :=
    destruct (run_process w c) as [? ? ?|[|?]];
    [ match goal with
      | |- context [(?rc =? 0)%Z] =>
        let E := fresh "E" in
        destruct (rc =? 0)%Z eqn:E; [apply Z.eqb_eq in E; subst rc|]
      end | | ] in
  go rev_parse_cmd; [go (log_cmd b); [go (diff_cmd b)| | |]| | |].

(** * Verification *)

(** ** Python strings *)

Section StringFacts.

Lemma eqb_eq (s t : pystr) : eqb s t = true <-> s = t.
Proof.
  unfold eqb. destruct (list_eq_dec N.eq_dec s t); split; congruence.
Qed.

Lemma eqb_refl (s : pystr) : eqb s s = true.
Proof. now apply eqb_eq. Qed.

Lemma cmd_eqb_eq (a b : list pystr) : cmd_eqb a b = true <-> a = b.
Proof.
  unfold cmd_eqb.
  destruct (list_eq_dec (list_eq_dec N.eq_dec) a b); split; congruence.
Qed.

Lemma startswith_prefix (p s : pystr) :
  startswith s p = true -> exists post, s = p ++ post.
Proof.
  revert s. induction p as [|c p IH]; intros s H.
  - now exists s.
  - destruct s as [|d s]; simpl in H; [discriminate|].
    apply andb_true_iff in H. destruct H as [Hc Hs].
    apply N.eqb_eq in Hc. subst d.
    destruct (IH _ Hs) as [post ->]. now exists post.
Qed.

Lemma contains_Substring (p s : pystr) :
  contains s p = true -> Substring p s.
Proof.
  induction s as [|d s IH]; cbn [contains]; intros H.
  - rewrite orb_false_r in H.
    destruct (startswith_prefix _ _ H) as [post E].
    exists [], post. exact E.
  - apply orb_true_iff in H. destruct H as [H|H].
    + destruct (startswith_prefix _ _ H) as [post E].
      exists [], post. exact E.
    + destruct (IH H) as (pre & post & ->).
      exists (d :: pre), post. reflexivity.
Qed.

Lemma Substring_middle (pre p post : pystr) : Substring p (pre ++ p ++ post).
Proof. now exists pre, post. Qed.

Lemma Substring_prefix (p t : pystr) : Substring p (p ++ t).
Proof. exists [], t. reflexivity. Qed.

Lemma Substring_suffix (p s : pystr) : Substring p (s ++ p).
Proof. exists s, []. now rewrite app_nil_r. Qed.

Lemma Substring_app_l (p s t : pystr) : Substring p s -> Substring p (s ++ t).
Proof.
  intros (pre & post & ->). exists pre, (post ++ t).
  now rewrite <- !app_assoc.
Qed.

Lemma Substring_app_r (p s t : pystr) : Substring p t -> Substring p (s ++ t).
Proof.
  intros (pre & post & ->). exists (s ++ pre), post.
  now rewrite <- !app_assoc.
Qed.

Lemma lstrip_head (s : pystr) c r : lstrip s = c :: r -> isspace c = false.
Proof.
  induction s as [|d s IH]; simpl; [discriminate|].
  destruct (isspace d) eqn:E; [exact IH|].
  intros [= <- _]. exact E.
Qed.

Lemma lstrip_fixed (s : pystr) c r :
  s = c :: r -> isspace c = false -> lstrip s = s.
Proof. intros -> H. simpl. now rewrite H. Qed.

(** The last character left by [strip] is not a whitespace character. *)
Lemma strip_last (s l : pystr) c : strip s = l ++ [c] -> isspace c = false.
Proof.
  unfold strip, rstrip. intros H.
  apply (f_equal (@rev N)) in H.
  rewrite rev_involutive, rev_app_distr in H. simpl in H.
  exact (lstrip_head _ H).
Qed.

(** [strip] removes exactly the final newline of an unpadded line. *)
Lemma strip_unpadded_line (s : pystr) :
  unpadded s = true -> strip (s ++ NL) = s.
Proof.
  destruct s as [|c r]; [reflexivity|].
  intros H. apply andb_true_iff in H. destruct H as [Hh Hl].
  apply negb_true_iff in Hh, Hl.
  unfold strip, rstrip.
  rewrite (lstrip_fixed (s := (c :: r) ++ NL) (c := c) (r := r ++ NL) eq_refl Hh).
  unfold NL. rewrite rev_app_distr. simpl rev at 2.
  change ([10] ++ rev (c :: r)) with (10 :: rev (c :: r)).
  cbn [lstrip]. change (isspace 10) with true. cbn iota.
  destruct (exists_last (l := c :: r) ltac:(discriminate)) as (l' & x & E).
  rewrite E in Hl |- *. rewrite last_last in Hl.
  rewrite rev_app_distr. simpl rev at 1. simpl app.
  rewrite Hl. simpl. rewrite rev_involutive. reflexivity.
Qed.

Lemma lstrip_app (s t : pystr) :
  lstrip (s ++ t) = if forallb isspace s then lstrip t else lstrip s ++ t.
Proof.
  induction s as [|c s IH]; [reflexivity|].
  cbn [app lstrip forallb]. destruct (isspace c); [exact IH|reflexivity].
Qed.

Lemma lstrip_blank (s : pystr) : forallb isspace s = true -> lstrip s = [].
Proof.
  induction s as [|c s IH]; [reflexivity|].
  cbn [lstrip forallb]. destruct (isspace c); [exact IH|discriminate].
Qed.

(** A final newline does not change what [strip] returns. *)
Lemma strip_line (s : pystr) : strip (s ++ NL) = strip s.
Proof.
  unfold strip. rewrite lstrip_app.
  destruct (forallb isspace s) eqn:B.
  - rewrite (lstrip_blank _ B). reflexivity.
  - unfold rstrip, NL. rewrite rev_app_distr. reflexivity.
Qed.

End StringFacts.

(** ** The Completion Client *)

Section CompletionClient.

Variable w : World.
Variable git_info : GitInfo.

Local Abbreviation KEY := (u "OPENAI_API_KEY").
Local Abbreviation request :=
  [{| role := u "user"; content := compose_prompt git_info |}].

(** Without a usable credential the function only reads the environment. *)
Lemma generate_without_key :
  truthy (environ w KEY) = false ->
  generate_pr_message w git_info =
  ([Getenv KEY], Return (Some MISSING_KEY_MESSAGE)).
Proof.
  intros H. unfold generate_pr_message, getenv, bind, emit, ret.
  rewrite H. reflexivity.
Qed.

(** With a credential and a client constructed from it, the function sends
    one request and turns the answer into its result. *)
Lemma generate_with_key (key : pystr) :
  environ w KEY = Some key -> key <> [] -> new_client w key = None ->
  generate_pr_message w git_info =
  ([Getenv KEY; NewClient key; ChatCompletion key MODEL request],
   match chat_service w key MODEL request with
   | Response [] => Return (Some (CALL_FAILED ++ u "list index out of range"))
   | Response (c :: _) => Return c
   | ChatRaises e =>
     if derives_from_Exception e
     then Return (Some (CALL_FAILED ++ error_str e))
     else Raise (Remote e)
   end).
Proof.
  intros H Hne Hc.
  unfold generate_pr_message, getenv, OpenAI, chat_completions_create,
    first_choice, try_except, bind, emit, ret, raise.
  rewrite H.
  destruct key as [|k key]; [congruence|]. cbn [truthy negb].
  rewrite Hc.
  destruct (chat_service w (k :: key) MODEL request) as [[|c cs]|e]; cbn.
  - reflexivity.
  - reflexivity.
  - destruct (derives_from_Exception e); reflexivity.
Qed.

(** When the constructor of the client raises, the exception leaves the
    function, whatever its class: the call is outside the [try] block. *)
Lemma generate_client_fails (key : pystr) (e : remote_error) :
  environ w KEY = Some key -> key <> [] -> new_client w key = Some e ->
  generate_pr_message w git_info =
  ([Getenv KEY; NewClient key], Raise (Remote e)).
Proof.
  intros H Hne Hc.
  unfold generate_pr_message, getenv, OpenAI, bind, emit, ret, raise.
  rewrite H.
  destruct key as [|k key]; [congruence|]. cbn [truthy negb].
  rewrite Hc. reflexivity.
Qed.

(** An exception that leaves the function was raised by the constructor of
    the client, or is of a class that does not derive from [Exception]. *)
Lemma generate_raises_only_outside_try (e : api_exn) :
  outcome (generate_pr_message w git_info) = Raise e ->
  (exists key r, environ w KEY = Some key /\ new_client w key = Some r /\
                 e = Remote r) \/
  is_Exception e = false.
Proof.
  destruct (truthy (environ w KEY)) eqn:T.
  - destruct (environ w KEY) as [[|k key]|] eqn:E; try discriminate.
    destruct (new_client w (k :: key)) as [r|] eqn:C.
    + rewrite (generate_client_fails E ltac:(discriminate) C).
      unfold outcome; cbn [snd]. intros [= <-]. left. eauto.
    + rewrite (generate_with_key E ltac:(discriminate) C).
      unfold outcome; cbn [snd].
      destruct (chat_service w (k :: key) MODEL request) as [[|c cs]|r];
        try discriminate.
      destruct (derives_from_Exception r) eqn:D; [discriminate|].
      intros [= <-]. right. exact D.
  - rewrite (generate_without_key T). discriminate.
Qed.

Lemma generate_never_runs_git :
  subprocess_calls (trace (generate_pr_message w git_info)) = [] /\
  printed (trace (generate_pr_message w git_info)) = [].
Proof.
  destruct (truthy (environ w KEY)) eqn:T.
  - destruct (environ w KEY) as [[|k key]|] eqn:E; try discriminate.
    destruct (new_client w (k :: key)) as [r|] eqn:C.
    + rewrite (generate_client_fails E ltac:(discriminate) C).
      split; reflexivity.
    + rewrite (generate_with_key E ltac:(discriminate) C).
      split; reflexivity.
  - rewrite (generate_without_key T). split; reflexivity.
Qed.

(** A [try] block that raises was reached: the client was constructed. *)
Lemma try_block_reached (key : pystr) (e : api_exn) :
  try_block_error w key git_info = Some e -> new_client w key = None.
Proof.
  unfold try_block_error. destruct (new_client w key); [discriminate|reflexivity].
Qed.

End CompletionClient.

(** ** The Repository Inspector *)

Section Inspector.

Variable w : World.
Variable base : pystr.

(** A successful run ran the three commands, each exiting with status 0,
    and returns their outputs: the first two stripped, the diff untouched. *)
Lemma get_git_info_success (tr : list event) (info : GitInfo) :
  get_git_info w base = (tr, Return (Some info)) ->
  exists o1 e1 o2 e2 o3 e3,
    run_process w rev_parse_cmd = Exited 0 o1 e1 /\
    run_process w (log_cmd base) = Exited 0 o2 e2 /\
    run_process w (diff_cmd base) = Exited 0 o3 e3 /\
    info = {| branch_name := strip o1; commit_logs := strip o2;
              code_diff := o3 |} /\
    tr = map Subprocess (git_commands base).
Proof.
  unfold_inspector. run_cases w base; cbn; intros [= <- <-] || intros [=].
  repeat eexists.
Qed.

Lemma get_git_info_all_succeed o1 e1 o2 e2 o3 e3 :
  run_process w rev_parse_cmd = Exited 0 o1 e1 ->
  run_process w (log_cmd base) = Exited 0 o2 e2 ->
  run_process w (diff_cmd base) = Exited 0 o3 e3 ->
  get_git_info w base =
  (map Subprocess (git_commands base),
   Return (Some {| branch_name := strip o1; commit_logs := strip o2;
                   code_diff := o3 |})).
Proof.
  intros H1 H2 H3. unfold_inspector. rewrite H1; cbn. rewrite H2; cbn.
  rewrite H3; cbn. reflexivity.
Qed.

(** A handled failure stops the run after the failing command: the error
    message is the last event and the result is [None]. *)
Lemma get_git_info_failure :
  inspector_fails w base = true ->
  exists n msg,
    (1 <= n <= 3)%nat /\
    get_git_info w base =
    (map Subprocess (firstn n (git_commands base)) ++ [Stdout msg],
     Return None) /\
    (msg = GIT_NOT_INSTALLED \/ exists stderr, msg = GIT_COMMAND_FAILED ++ stderr).
Proof.
  unfold inspector_fails, handled_failure, succeeded. unfold_inspector.
  run_cases w base; cbn; try discriminate;
    try (rewrite E; cbn; try discriminate); intros _.
  all: first
    [ exists 1%nat; eexists; split; [lia|split; [reflexivity|eauto]]
    | exists 2%nat; eexists; split; [lia|split; [reflexivity|eauto]]
    | exists 3%nat; eexists; split; [lia|split; [reflexivity|eauto]] ].
Qed.

(** Whatever happens, the commands run are an initial part of the three. *)
Lemma get_git_info_calls :
  exists n, (1 <= n <= 3)%nat /\
    subprocess_calls (trace (get_git_info w base)) =
    firstn n (git_commands base).
Proof.
  unfold_inspector.
  run_cases w base; cbn;
    first [ exists 1%nat; split; [lia|reflexivity]
          | exists 2%nat; split; [lia|reflexivity]
          | exists 3%nat; split; [lia|reflexivity] ].
Qed.

(** The commands run are those up to and including the first one that
    does not succeed. *)
Lemma get_git_info_until_first_failure :
  subprocess_calls (trace (get_git_info w base)) =
  until_first_failure w (git_commands base).
Proof.
  unfold git_commands, until_first_failure, succeeded. unfold_inspector.
  run_cases w base; cbn; rewrite ?E; reflexivity.
Qed.

Lemma get_git_info_no_client_event :
  filter is_completion_client_event (trace (get_git_info w base)) = [].
Proof. unfold_inspector. run_cases w base; reflexivity. Qed.

(** The result depends on the world only through the three commands. *)
Lemma get_git_info_depends_on_commands (w' : World) :
  (forall c, In c (git_commands base) -> run_process w' c = run_process w c) ->
  get_git_info w' base = get_git_info w base.
Proof.
  intros H. unfold_inspector.
  rewrite (H rev_parse_cmd), (H (log_cmd base)), (H (diff_cmd base))
    by (simpl; auto).
  reflexivity.
Qed.

End Inspector.

(** ** Counting lines *)

Section LineCount.

Lemma ends_on_boundary_last (b : bool) (l : pystr) (c : N) :
  ends_on_boundary b (l ++ [c]) = (c =? 10).
Proof. revert b. induction l as [|d l IH]; intros b; simpl; auto. Qed.

Lemma only_newlines_tail c (s : pystr) :
  only_newlines (c :: s) -> only_newlines s.
Proof. intros H d Hd. apply H. now right. Qed.

(** On a text whose only line boundaries are newlines, [split] yields the
    lines of [splitlines], and one more empty piece when the text is empty or
    ends with a newline. *)
Lemma split_vs_splitlines (s cur : pystr) :
  only_newlines s ->
  List.length (split_from 10 cur s) =
  (List.length (splitlines_from cur s) +
   if ends_on_boundary (match cur with [] => true | _ => false end) s
   then 1 else 0)%nat.
Proof.
  revert cur. induction s as [|c s IH]; intros cur H.
  - destruct cur; reflexivity.
  - pose proof (only_newlines_tail H) as Ht.
    assert (Hc : is_linebreak c = true -> c = 10)
      by (apply H; now left).
    cbn [split_from splitlines_from ends_on_boundary].
    destruct (c =? 10) eqn:E10.
    + apply N.eqb_eq in E10. subst c. cbn.
      rewrite (IH [] Ht). reflexivity.
    + destruct (c =? 13) eqn:E13.
      * apply N.eqb_eq in E13. subst c.
        discriminate (Hc eq_refl).
      * destruct (is_linebreak c) eqn:EL.
        -- rewrite (Hc eq_refl) in E10. discriminate.
        -- rewrite (IH (c :: cur) Ht). reflexivity.
Qed.

(** After [strip], and with newlines as the only line boundaries, the two
    ways of counting agree. *)
Lemma splitlines_strip_count (out : pystr) :
  only_newlines (strip out) ->
  List.length (splitlines (strip out)) = newline_entries (strip out).
Proof.
  intros H. unfold newline_entries, splitlines, split.
  destruct (strip out) as [|c r] eqn:E; [reflexivity|].
  rewrite (split_vs_splitlines [] H).
  destruct (exists_last (l := c :: r) ltac:(discriminate)) as (l & x & L).
  rewrite L in *. rewrite ends_on_boundary_last.
  pose proof (@strip_last _ _ _ E) as Hx.
  destruct (x =? 10) eqn:X; [|lia].
  apply N.eqb_eq in X. subst x. discriminate Hx.
Qed.

End LineCount.

(** ** The argument parser *)

Section ArgumentParser.

Variable w : World.







(** The parser prints nothing when it returns. *)
Lemma parse_args_return (argv : list pystr) (ns : Namespace) :
  outcome (parse_args w argv) = Return ns ->
  parse_args w argv = ([], Return ns).
Proof.
  unfold parse_args, argparse_exit.
  destruct (classify w argv) as [ps|]; [|discriminate].
  destruct (consume_optionals ps); [discriminate|].
  destruct (existsb is_unknown_option ps); [discriminate|].
  destruct (skipn _ argv); [|discriminate].
  destruct (remove_dashes _) as [|x [|y l]]; try discriminate;
    cbn; intros [= <-]; reflexivity.
Qed.

End ArgumentParser.

(** ** The driver *)

Section Driver.

Variable w : World.


Lemma subprocess_calls_map (cs : list (list pystr)) :
  subprocess_calls (map Subprocess cs) = cs.
Proof. induction cs as [|c cs IH]; cbn; [|rewrite IH]; reflexivity. Qed.

Lemma network_calls_app (a b : list event) :
  network_calls (a ++ b) = (network_calls a + network_calls b)%nat.
Proof. unfold network_calls. now rewrite filter_app, length_app. Qed.

Lemma network_calls_subprocesses (cs : list (list pystr)) :
  network_calls (map Subprocess cs) = 0%nat.
Proof. induction cs as [|c cs IH]; [reflexivity|exact IH]. Qed.

Lemma client_events_subprocesses (cs : list (list pystr)) :
  filter is_completion_client_event (map Subprocess cs) = [].
Proof. induction cs as [|c cs IH]; [reflexivity|exact IH]. Qed.

(** The run when the inspector reports a failure. *)
Lemma main_inspector_none (argv : list pystr) (ns : Namespace)
    (tr : list event) :
  outcome (parse_args w argv) = Return ns ->
  get_git_info w (base_branch ns) = (tr, Return None) ->
  main w argv =
  ([Stdout (u "✅ 기준 브랜치: '" ++ base_branch ns ++ u "'");
    Stdout (u "Git 정보를 수집 중입니다...")] ++ tr,
   Return tt).
Proof.
  intros Hp Hg. apply parse_args_return in Hp.
  unfold main. rewrite Hp.
  unfold bind, lift, print, emit, ret. rewrite Hg. cbn.
  now rewrite app_nil_r.
Qed.

(** The run when the inspector returns a GitInfo. *)
Lemma main_inspector_some (argv : list pystr) (ns : Namespace)
    (tr : list event) (info : GitInfo) :
  outcome (parse_args w argv) = Return ns ->
  get_git_info w (base_branch ns) = (tr, Return (Some info)) ->
  main w argv =
  ([Stdout (u "✅ 기준 브랜치: '" ++ base_branch ns ++ u "'");
    Stdout (u "Git 정보를 수집 중입니다...")] ++ tr ++
   [Stdout (u "브랜치: " ++ branch_name info);
    Stdout (u "커밋 수: " ++ str_of_nat (commit_count info) ++ u "개");
    Stdout (NL ++ u "OPENAI API를 통해 PR 메시지를 생성합니다...")] ++
   trace (generate_pr_message w info) ++
   match outcome (generate_pr_message w info) with
   | Return reply =>
     [Stdout (NL ++ repeat_str (u "=") 50);
      Stdout (u "✨ 생성된 PR 메시지 ✨");
      Stdout (repeat_str (u "=") 50);
      Stdout (str_of_reply reply);
      Stdout (repeat_str (u "=") 50)]
   | Raise _ => []
   end,
   match outcome (generate_pr_message w info) with
   | Return _ => Return tt
   | Raise e => Raise (Completion e)
   end).
Proof.
  intros Hp Hg. apply parse_args_return in Hp.
  unfold main. rewrite Hp.
  unfold bind, lift, print, emit, ret. rewrite Hg.
  destruct (generate_pr_message w info) as [tr2 [reply|e]];
    unfold trace, outcome; cbn [fst snd app];
    rewrite <- ?app_assoc; cbn [app]; rewrite ?app_nil_r; reflexivity.
Qed.


End Driver.

(** ** The options of the parser *)

Section ParserOptions.

Variable w : World.






Lemma consume_optionals_code (ps : list pattern) (code : Z) :
  consume_optionals ps = Some code -> code = 0%Z \/ code = 2%Z.
Proof.
  induction ps as [|p ps IH]; [discriminate|].
  cbn [consume_optionals]. destruct p as [| |[o e|]]; try exact IH.
  destruct (help_taken o e); intros [= <-]; auto.
Qed.

(** When the parser does not return it exits, with status 0 after the help
    text or with status 2 after a usage error. *)
Lemma parse_args_raise (argv : list pystr) (e : exn) :
  outcome (parse_args w argv) = Raise e ->
  exists code,
    (code = 0%Z \/ code = 2%Z) /\ e = SystemExit code /\
    parse_args w argv =
    ([if (code =? 0)%Z then ArgparseHelp else ArgparseUsageError],
     Raise (SystemExit code)).
Proof.
  unfold parse_args.
  destruct (classify w argv) as [ps|];
    [|intros [= <-]; exists 2%Z; auto].
  destruct (consume_optionals ps) as [code|] eqn:C.
  - destruct (consume_optionals_code _ C) as [-> | ->];
      intros [= <-]; [exists 0%Z|exists 2%Z]; auto.
  - destruct (existsb is_unknown_option ps);
      [intros [= <-]; exists 2%Z; auto|].
    destruct (skipn _ argv); [|intros [= <-]; exists 2%Z; auto].
    destruct (remove_dashes _) as [|x [|y l]];
      try discriminate; intros [= <-]; exists 2%Z; auto.
Qed.







End ParserOptions.

(** ** The claims *)

(** C1.  When the Repository Inspector fails (one of its git commands exits
    with a non-zero status, or the git executable is not found), the run of
    the driver consists of its two progress lines, the git commands up to the
    failing one and the error message, which is the last thing printed; the
    Completion Client is never entered, so there is no network call; and the
    script returns normally: the exit status is 0 and no explicit exit code
    is set. *)
Theorem inspector_failure_stops_the_run (w : World) (argv : list pystr)
    (ns : Namespace) :
  outcome (parse_args w argv) = Return ns ->
  inspector_fails w (base_branch ns) = true ->
  exists n msg,
    (1 <= n <= 3)%nat /\
    (msg = GIT_NOT_INSTALLED \/
     exists stderr, msg = GIT_COMMAND_FAILED ++ stderr) /\
    main w argv =
    ([Stdout (u "✅ 기준 브랜치: '" ++ base_branch ns ++ u "'");
      Stdout (u "Git 정보를 수집 중입니다...")] ++
     map Subprocess (firstn n (git_commands (base_branch ns))) ++
     [Stdout msg],
     Return tt) /\
    network_calls (trace (main w argv)) = 0%nat /\
    filter is_completion_client_event (trace (main w argv)) = [] /\
    exit_status (outcome (main w argv)) = 0%Z /\
    explicit_exit (outcome (main w argv)) = false.
Proof.
  intros Hp Hf.
  destruct (get_git_info_failure w (base_branch ns) Hf)
    as (n & msg & Hn & Hg & Hmsg).
  exists n, msg.
  rewrite (main_inspector_none w _ Hp Hg).
  unfold trace, outcome; cbn [fst snd].
  repeat split; try tauto.
  - cbn [app]. change (?a :: ?b :: ?l) with ([a; b] ++ l).
    rewrite !network_calls_app, network_calls_subprocesses. reflexivity.
  - cbn [app filter is_completion_client_event].
    rewrite filter_app, client_events_subprocesses. reflexivity.
Qed.

Lemma inspector_failure_stops_the_run_witness :
  main (example_world (Some (u "sk-test")) (Response [Some (u "ok")]))
       [u "no-such-branch"] =
  ([Stdout (u "✅ 기준 브랜치: 'no-such-branch'");
    Stdout (u "Git 정보를 수집 중입니다...");
    Subprocess rev_parse_cmd;
    Subprocess (log_cmd (u "no-such-branch"));
    Stdout (GIT_COMMAND_FAILED ++ u "fatal: bad revision")],
   Return tt) /\
  exists n msg,
    (1 <= n <= 3)%nat /\
    (msg = GIT_NOT_INSTALLED \/
     exists stderr, msg = GIT_COMMAND_FAILED ++ stderr) /\
    main no_git_world [] =
    ([Stdout (u "✅ 기준 브랜치: '" ++ u "main" ++ u "'");
      Stdout (u "Git 정보를 수집 중입니다...")] ++
     map Subprocess (firstn n (git_commands (u "main"))) ++
     [Stdout msg],
     Return tt) /\
    network_calls (trace (main no_git_world [])) = 0%nat /\
    filter is_completion_client_event (trace (main no_git_world [])) = [] /\
    exit_status (outcome (main no_git_world [])) = 0%Z /\
    explicit_exit (outcome (main no_git_world [])) = false.
Proof.
  split; [vm_compute; reflexivity|].
  apply (@inspector_failure_stops_the_run no_git_world []
           {| base_branch := u "main" |}); reflexivity.
Defined.

(** C2.  For every GitInfo and every error raised while the chat completion
    is requested and its reply is read (an exception of the client library,
    or an index error on a reply without choices), [generate_pr_message]
    returns the string made of the call-failed marker followed by the text of
    the error; nothing is raised. *)
Theorem remote_errors_are_reported (w : World) (git_info : GitInfo)
    (key : pystr) (e : api_exn) :
  environ w (u "OPENAI_API_KEY") = Some key ->
  key <> [] ->
  try_block_error w key git_info = Some e ->
  is_Exception e = true ->
  outcome (generate_pr_message w git_info) =
    Return (Some (CALL_FAILED ++ exn_str e)) /\
  Substring CALL_FAILED (CALL_FAILED ++ exn_str e) /\
  Substring (exn_str e) (CALL_FAILED ++ exn_str e) /\
  forall e', outcome (generate_pr_message w git_info) <> Raise e'.
Proof.
  intros Hk Hne Ht He.
  assert (R : outcome (generate_pr_message w git_info) =
              Return (Some (CALL_FAILED ++ exn_str e))).
  { rewrite (generate_with_key w git_info Hk Hne (try_block_reached _ _ _ Ht)).
    unfold outcome; cbn [snd]. unfold try_block_error in Ht.
    rewrite (try_block_reached _ _ _ Ht) in Ht.
    destruct (chat_service w key MODEL _) as [[|c cs]|r]; try discriminate;
      injection Ht as <-; cbn [exn_str]; [reflexivity|].
    cbn [is_Exception] in He. now rewrite He. }
  split; [exact R|]. split; [|split].
  - apply Substring_prefix.
  - apply Substring_suffix.
  - intros e' H. rewrite R in H. discriminate.
Qed.

Lemma remote_errors_are_reported_witness :
  outcome (generate_pr_message
             (example_world (Some (u "sk-test")) (ChatRaises connection_error))
             example_info) =
    Return (Some (u "Gemini API 호출 중 오류가 발생했습니다: Connection error.")) /\
  outcome (generate_pr_message
             (example_world (Some (u "sk-test")) (Response []))
             example_info) =
    Return (Some (CALL_FAILED ++ exn_str IndexError)).
Proof.
  split.
  - apply (@remote_errors_are_reported
             (example_world (Some (u "sk-test")) (ChatRaises connection_error))
             example_info (u "sk-test") (Remote connection_error));
      [reflexivity|discriminate|reflexivity|reflexivity].
  - apply (@remote_errors_are_reported
             (example_world (Some (u "sk-test")) (Response []))
             example_info (u "sk-test") IndexError);
      [reflexivity|discriminate|reflexivity|reflexivity].
Defined.

(** C3.  When the authentication variable is unset, [generate_pr_message]
    only reads the environment and returns the missing-credential message: no
    client is built and no network call is made.  The message is a returned
    value: a run whose inspector succeeded prints it and ends normally, with
    exit status 0. *)
Theorem missing_credential_is_reported (w : World) (git_info : GitInfo) :
  environ w (u "OPENAI_API_KEY") = None ->
  generate_pr_message w git_info =
    ([Getenv (u "OPENAI_API_KEY")], Return (Some MISSING_KEY_MESSAGE)) /\
  Substring (u "설정되지 않았습니다") MISSING_KEY_MESSAGE /\
  network_calls (trace (generate_pr_message w git_info)) = 0%nat /\
  forall argv ns tr,
    outcome (parse_args w argv) = Return ns ->
    get_git_info w (base_branch ns) = (tr, Return (Some git_info)) ->
    In (Stdout MISSING_KEY_MESSAGE) (trace (main w argv)) /\
    network_calls (trace (main w argv)) = 0%nat /\
    outcome (main w argv) = Return tt /\
    exit_status (outcome (main w argv)) = 0%Z.
Proof.
  intros Hk.
  assert (G : generate_pr_message w git_info =
              ([Getenv (u "OPENAI_API_KEY")],
               Return (Some MISSING_KEY_MESSAGE))).
  { apply generate_without_key. now rewrite Hk. }
  split; [exact G|]. split; [|split].
  - apply contains_Substring. vm_compute. reflexivity.
  - rewrite G. reflexivity.
  - intros argv ns tr Hp Hg.
    rewrite (main_inspector_some w _ Hp Hg), G.
    destruct (get_git_info_success _ _ Hg) as (o1 & e1 & o2 & e2 & o3 & e3 & _ & _ & _ & _ & ->).
    unfold trace, outcome; cbn [fst snd].
    split; [|split; [|split; reflexivity]].
    + apply in_or_app. right. apply in_or_app. right.
      apply in_or_app. right. apply in_or_app. right.
      cbn [str_of_reply In]. auto 6.
    + rewrite !network_calls_app, network_calls_subprocesses. reflexivity.
Qed.

Lemma missing_credential_is_reported_witness :
  environ (example_world None (Response [])) (u "OPENAI_API_KEY") = None /\
  generate_pr_message (example_world None (Response [])) example_info =
    ([Getenv (u "OPENAI_API_KEY")], Return (Some MISSING_KEY_MESSAGE)).
Proof.
  split; [reflexivity|].
  apply (@missing_credential_is_reported
           (example_world None (Response [])) example_info).
  reflexivity.
Defined.

(** C5.  For every GitInfo the composed prompt is the fixed template with
    the branch name, the commit logs and the diff spliced in unchanged: each
    of the three occurs verbatim in the prompt, the three section headers
    (title, description, key changes) occur in it, and the length of the
    prompt is the length of the template plus the lengths of the three
    fields, so nothing is cut or rewritten.  On the GitInfo of the example
    the prompt contains the branch name, the log line and the diff text. *)
Theorem prompt_embeds_git_info (git_info : GitInfo) :
  Substring (branch_name git_info) (compose_prompt git_info) /\
  Substring (commit_logs git_info) (compose_prompt git_info) /\
  Substring (code_diff git_info) (compose_prompt git_info) /\
  Substring TITLE_HEADER (compose_prompt git_info) /\
  Substring DESCRIPTION_HEADER (compose_prompt git_info) /\
  Substring KEY_CHANGES_HEADER (compose_prompt git_info) /\
  List.length (compose_prompt git_info) =
    (List.length (PROMPT_HEAD ++ PROMPT_LOGS ++ PROMPT_DIFF ++ PROMPT_TAIL) +
     List.length (branch_name git_info) +
     List.length (commit_logs git_info) +
     List.length (code_diff git_info))%nat /\
  contains (compose_prompt example_info) (u "feature/x") = true /\
  contains (compose_prompt example_info) (u "fix bug") = true /\
  contains (compose_prompt example_info) (u "--- a" ++ NL ++ u "+++ b" ++ NL)
    = true.
Proof.
  unfold compose_prompt.
  split; [apply Substring_middle|].
  split; [do 2 apply Substring_app_r; apply Substring_middle|].
  split; [do 4 apply Substring_app_r; apply Substring_middle|].
  split; [apply Substring_app_l, contains_Substring; vm_compute; reflexivity|].
  split; [apply Substring_app_l, contains_Substring; vm_compute; reflexivity|].
  split; [apply Substring_app_l, contains_Substring; vm_compute; reflexivity|].
  split; [rewrite !length_app; lia|].
  repeat split; vm_compute; reflexivity.
Qed.

(** C9.  Without a usable credential the function returns exactly the fixed
    message below.  The message names GEMINI_API_KEY and not OPENAI_API_KEY,
    although the variable read is OPENAI_API_KEY; and when the request fails,
    the message returned begins with the words Gemini API, although the
    client built and called is the OpenAI one, with model gpt-4.1-mini. *)
Theorem messages_name_gemini (w : World) (git_info : GitInfo) :
  (truthy (environ w (u "OPENAI_API_KEY")) = false ->
   generate_pr_message w git_info =
   ([Getenv (u "OPENAI_API_KEY")], Return (Some MISSING_KEY_MESSAGE))) /\
  (forall key e,
     environ w (u "OPENAI_API_KEY") = Some key -> key <> [] ->
     try_block_error w key git_info = Some e -> is_Exception e = true ->
     generate_pr_message w git_info =
     ([Getenv (u "OPENAI_API_KEY"); NewClient key;
       ChatCompletion key MODEL
         [{| role := u "user"; content := compose_prompt git_info |}]],
      Return (Some (CALL_FAILED ++ exn_str e)))) /\
  MISSING_KEY_MESSAGE =
    u "오류: GEMINI_API_KEY가 설정되지 않았습니다. .env 파일을 확인해주세요." /\
  CALL_FAILED = u "Gemini API 호출 중 오류가 발생했습니다: " /\
  MODEL = u "gpt-4.1-mini" /\
  contains MISSING_KEY_MESSAGE (u "GEMINI_API_KEY") = true /\
  contains MISSING_KEY_MESSAGE (u "OPENAI_API_KEY") = false /\
  startswith CALL_FAILED (u "Gemini API") = true /\
  contains CALL_FAILED (u "OpenAI") = false.
Proof.
  split; [|split].
  - intros H. exact (generate_without_key w git_info H).
  - intros key e Hk Hne Ht He.
    rewrite (generate_with_key w git_info Hk Hne (try_block_reached _ _ _ Ht)).
    unfold try_block_error in Ht.
    rewrite (try_block_reached _ _ _ Ht) in Ht. f_equal.
    destruct (chat_service w key MODEL _) as [[|c cs]|r]; try discriminate;
      injection Ht as <-; cbn [exn_str]; [reflexivity|].
    cbn [is_Exception] in He. now rewrite He.
  - repeat (split; [vm_compute; reflexivity|]). vm_compute. reflexivity.
Qed.

Lemma messages_name_gemini_witness :
  generate_pr_message (example_world None (Response [])) example_info =
  ([Getenv (u "OPENAI_API_KEY")], Return (Some MISSING_KEY_MESSAGE)) /\
  generate_pr_message
    (example_world (Some (u "sk-test")) (ChatRaises connection_error))
    example_info =
  ([Getenv (u "OPENAI_API_KEY"); NewClient (u "sk-test");
    ChatCompletion (u "sk-test") MODEL
      [{| role := u "user"; content := compose_prompt example_info |}]],
   Return (Some (CALL_FAILED ++ exn_str (Remote connection_error)))).
Proof.
  split.
  - apply (proj1 (messages_name_gemini
                    (example_world None (Response [])) example_info)).
    vm_compute. reflexivity.
  - apply (proj1 (proj2 (messages_name_gemini
             (example_world (Some (u "sk-test")) (ChatRaises connection_error))
             example_info)) (u "sk-test") (Remote connection_error)).
    + vm_compute. reflexivity.
    + discriminate.
    + reflexivity.
    + reflexivity.
Defined.

(** C10.  A credential that is set to the empty string is treated exactly
    as an unset one: the function behaves as in any world where the variable
    is unset, returning the missing-credential message without building a
    client or making a network call. *)
Theorem empty_credential_is_missing (w w' : World) (git_info : GitInfo) :
  environ w (u "OPENAI_API_KEY") = Some [] ->
  environ w' (u "OPENAI_API_KEY") = None ->
  generate_pr_message w git_info = generate_pr_message w' git_info /\
  generate_pr_message w git_info =
    ([Getenv (u "OPENAI_API_KEY")], Return (Some MISSING_KEY_MESSAGE)) /\
  network_calls (trace (generate_pr_message w git_info)) = 0%nat /\
  filter (fun ev => match ev with NewClient _ => true | _ => false end)
         (trace (generate_pr_message w git_info)) = [].
Proof.
  intros H H'.
  assert (G : generate_pr_message w git_info =
              ([Getenv (u "OPENAI_API_KEY")],
               Return (Some MISSING_KEY_MESSAGE)))
    by (apply generate_without_key; now rewrite H).
  assert (G' : generate_pr_message w' git_info =
               ([Getenv (u "OPENAI_API_KEY")],
                Return (Some MISSING_KEY_MESSAGE)))
    by (apply generate_without_key; now rewrite H').
  split; [now rewrite G, G'|]. split; [exact G|].
  rewrite G. split; reflexivity.
Qed.

Lemma empty_credential_is_missing_witness :
  generate_pr_message (example_world (Some []) (Response [Some (u "ok")]))
                      example_info =
  generate_pr_message (example_world None (Response [Some (u "ok")]))
                      example_info.
Proof.
  apply (@empty_credential_is_missing
           (example_world (Some []) (Response [Some (u "ok")]))
           (example_world None (Response [Some (u "ok")]))
           example_info).
  - vm_compute. reflexivity.
  - vm_compute. reflexivity.
Defined.

(** Where the count is right.  For every GitInfo produced by a successful
    run of the Repository Inspector whose commit logs have no line boundary
    other than the newline character, the commit count printed by the driver
    is the number of newline-separated entries of the commit logs; when the
    commit logs are empty the count is 0. *)
Theorem commit_count_is_newline_entries (w : World) (argv : list pystr)
    (ns : Namespace) (tr : list event) (git_info : GitInfo) :
  outcome (parse_args w argv) = Return ns ->
  get_git_info w (base_branch ns) = (tr, Return (Some git_info)) ->
  only_newlines (commit_logs git_info) ->
  commit_count git_info = newline_entries (commit_logs git_info) /\
  In (Stdout (u "커밋 수: " ++
              str_of_nat (newline_entries (commit_logs git_info)) ++ u "개"))
     (trace (main w argv)) /\
  (commit_logs git_info = [] -> commit_count git_info = 0%nat).
Proof.
  intros Hp Hg Hn.
  destruct (get_git_info_success _ _ Hg)
    as (o1 & e1 & o2 & e2 & o3 & e3 & _ & _ & _ & -> & _).
  cbn [commit_logs] in *.
  assert (C : commit_count {| branch_name := strip o1;
                              commit_logs := strip o2;
                              code_diff := o3 |} =
              newline_entries (strip o2))
    by (apply splitlines_strip_count; exact Hn).
  split; [exact C|]. split.
  - rewrite (main_inspector_some w _ Hp Hg). unfold trace; cbn [fst].
    rewrite C.
    apply in_or_app. right. apply in_or_app. right.
    apply in_or_app. left. cbn [In commit_logs]. auto.
  - intros E. unfold commit_count. cbn [commit_logs]. rewrite E. reflexivity.
Qed.

Lemma commit_count_is_newline_entries_witness :
  commit_count two_commits_info =
    newline_entries (commit_logs two_commits_info) /\
  In (Stdout (u "커밋 수: " ++
              str_of_nat (newline_entries (commit_logs two_commits_info)) ++
              u "개"))
     (trace (main two_commits_world [])) /\
  (commit_logs two_commits_info = [] ->
   commit_count two_commits_info = 0%nat).
Proof.
  refine (@commit_count_is_newline_entries two_commits_world []
            {| base_branch := u "main" |}
            (map Subprocess (git_commands (u "main")))
            two_commits_info _ _ _).
  - reflexivity.
  - vm_compute. reflexivity.
  - intros c Hc Hl. vm_compute in Hc.
    repeat (destruct Hc as [<-|Hc]; [first [reflexivity|discriminate Hl]|]).
    destruct Hc.
Defined.

(** C4.  The count printed is not always the number of newline-separated
    entries of the commit logs: when git prints the single subject [a], form
    feed, [b], the inspector succeeds with commit logs of one entry, and the
    driver, which counts with [splitlines], prints a commit count of 2 for
    the one commit. *)
Lemma commit_count_splits_on_form_feed :
  get_git_info formfeed_world (u "main") =
    (map Subprocess (git_commands (u "main")),
     Return (Some {| branch_name := u "topic"; commit_logs := [97; 12; 98];
                     code_diff := [] |})) /\
  newline_entries [97; 12; 98] = 1%nat /\
  commit_count {| branch_name := u "topic"; commit_logs := [97; 12; 98];
                  code_diff := [] |} = 2%nat /\
  nth_error (printed (trace (main formfeed_world []))) 3 =
    Some (u "커밋 수: 2개").
Proof. repeat (split; [vm_compute; reflexivity|]). vm_compute. reflexivity. Qed.

(** C6, as the code has it.  For every base branch name the Repository
    Inspector invokes the three version-control commands below in this
    order and stops after the first one that fails: the commands run are
    those up to and including the first one that does not succeed, so the
    first command alone when it fails, the first two when the second fails,
    and exactly the three when the first two succeed; when the three of them
    succeed a GitInfo is returned.  The commands are: the abbreviated ref of
    HEAD, the one-line subjects of the range [base..HEAD], and the diff
    [base...HEAD] against the merge base. *)
Theorem inspector_runs_git_commands_in_order (w : World) (base : pystr) :
  subprocess_calls (trace (get_git_info w base)) =
    until_first_failure w
      [[u "git"; u "rev-parse"; u "--abbrev-ref"; u "HEAD"];
       [u "git"; u "log"; base ++ u "..HEAD"; u "--oneline";
        u "--pretty=format:%s"];
       [u "git"; u "diff"; base ++ u "...HEAD"]] /\
  (succeeded (run_process w rev_parse_cmd) = false ->
   subprocess_calls (trace (get_git_info w base)) =
     [[u "git"; u "rev-parse"; u "--abbrev-ref"; u "HEAD"]]) /\
  (succeeded (run_process w rev_parse_cmd) = true ->
   succeeded (run_process w (log_cmd base)) = false ->
   subprocess_calls (trace (get_git_info w base)) =
     [[u "git"; u "rev-parse"; u "--abbrev-ref"; u "HEAD"];
      [u "git"; u "log"; base ++ u "..HEAD"; u "--oneline";
       u "--pretty=format:%s"]]) /\
  (succeeded (run_process w rev_parse_cmd) = true ->
   succeeded (run_process w (log_cmd base)) = true ->
   subprocess_calls (trace (get_git_info w base)) =
     [[u "git"; u "rev-parse"; u "--abbrev-ref"; u "HEAD"];
      [u "git"; u "log"; base ++ u "..HEAD"; u "--oneline";
       u "--pretty=format:%s"];
      [u "git"; u "diff"; base ++ u "...HEAD"]]) /\
  (exists n, (1 <= n <= 3)%nat /\
     subprocess_calls (trace (get_git_info w base)) =
     firstn n
       [[u "git"; u "rev-parse"; u "--abbrev-ref"; u "HEAD"];
        [u "git"; u "log"; base ++ u "..HEAD"; u "--oneline";
         u "--pretty=format:%s"];
        [u "git"; u "diff"; base ++ u "...HEAD"]]) /\
  (forallb (fun c => succeeded (run_process w c)) (git_commands base) = true ->
   subprocess_calls (trace (get_git_info w base)) =
     [[u "git"; u "rev-parse"; u "--abbrev-ref"; u "HEAD"];
      [u "git"; u "log"; base ++ u "..HEAD"; u "--oneline";
       u "--pretty=format:%s"];
      [u "git"; u "diff"; base ++ u "...HEAD"]] /\
   exists info, outcome (get_git_info w base) = Return (Some info)).
Proof.
  pose proof (get_git_info_until_first_failure w base) as U.
  split; [exact U|].
  unfold git_commands in U. cbn [until_first_failure] in U.
  split; [intros H1; rewrite H1 in U; exact U|].
  split; [intros H1 H2; rewrite H1, H2 in U; exact U|].
  split; [intros H1 H2; rewrite H1, H2 in U;
          destruct (succeeded (run_process w (diff_cmd base))); exact U|].
  split; [exact (get_git_info_calls w base)|].
  unfold git_commands. cbn [forallb]. rewrite andb_true_r.
  intros H. apply andb_true_iff in H. destruct H as [H1 H].
  apply andb_true_iff in H. destruct H as [H2 H3].
  unfold succeeded in H1, H2, H3.
  destruct (run_process w rev_parse_cmd) as [rc1 o1 e1|] eqn:R1; [|discriminate].
  destruct (run_process w (log_cmd base)) as [rc2 o2 e2|] eqn:R2; [|discriminate].
  destruct (run_process w (diff_cmd base)) as [rc3 o3 e3|] eqn:R3; [|discriminate].
  apply Z.eqb_eq in H1, H2, H3. subst.
  rewrite (get_git_info_all_succeed w base R1 R2 R3).
  split; [reflexivity|eexists; reflexivity].
Qed.

Lemma inspector_runs_git_commands_in_order_witness :
  subprocess_calls
    (trace (get_git_info (example_world None (Response []))
                         (u "no-such-branch"))) =
  [[u "git"; u "rev-parse"; u "--abbrev-ref"; u "HEAD"];
   [u "git"; u "log"; u "no-such-branch" ++ u "..HEAD"; u "--oneline";
    u "--pretty=format:%s"]] /\
  (subprocess_calls
     (trace (get_git_info (example_world None (Response [])) (u "main"))) =
   [[u "git"; u "rev-parse"; u "--abbrev-ref"; u "HEAD"];
    [u "git"; u "log"; u "main" ++ u "..HEAD"; u "--oneline";
     u "--pretty=format:%s"];
    [u "git"; u "diff"; u "main" ++ u "...HEAD"]] /\
   exists info,
     outcome (get_git_info (example_world None (Response [])) (u "main")) =
     Return (Some info)).
Proof.
  split.
  - refine (proj1 (proj2 (proj2 (inspector_runs_git_commands_in_order
                      (example_world None (Response []))
                      (u "no-such-branch")))) _ _);
      vm_compute; reflexivity.
  - refine (proj2 (proj2 (proj2 (proj2 (proj2
              (inspector_runs_git_commands_in_order
                 (example_world None (Response [])) (u "main")))))) _).
    vm_compute. reflexivity.
Defined.

(** C6 as stated fails: when the base branch does not exist the log command
    exits with a non-zero status and the diff command is never run. *)
Lemma unknown_base_runs_two_commands :
  subprocess_calls
    (trace (get_git_info (example_world None (Response []))
                         (u "no-such-branch"))) =
  [rev_parse_cmd; log_cmd (u "no-such-branch")] /\
  outcome (get_git_info (example_world None (Response []))
                        (u "no-such-branch")) = Return None.
Proof. split; vm_compute; reflexivity. Qed.

(** Where the branch name is right.  When the inspector succeeds and git
    prints a name followed by a newline, [GitInfo.branch_name] is that name
    with leading and trailing whitespace removed; it is the name exactly
    whenever the name neither starts nor ends with a whitespace character.
    A second call in a world that answers the three commands alike returns
    the same events and the same GitInfo. *)
Theorem branch_name_is_stripped_output (w : World) (base name err : pystr)
    (tr : list event) (git_info : GitInfo) :
  run_process w rev_parse_cmd = Exited 0 (name ++ NL) err ->
  get_git_info w base = (tr, Return (Some git_info)) ->
  branch_name git_info = strip name /\
  (unpadded name = true -> branch_name git_info = name) /\
  forall w',
    (forall c, In c (git_commands base) ->
               run_process w' c = run_process w c) ->
    get_git_info w' base = (tr, Return (Some git_info)).
Proof.
  intros Hr Hg.
  destruct (get_git_info_success _ _ Hg)
    as (o1 & e1 & o2 & e2 & o3 & e3 & R1 & _ & _ & -> & _).
  rewrite Hr in R1. injection R1 as <- _.
  cbn [branch_name]. split; [apply strip_line|]. split.
  - apply strip_unpadded_line.
  - intros w' H. rewrite <- Hg.
    apply get_git_info_depends_on_commands. exact H.
Qed.

Lemma branch_name_is_stripped_output_witness :
  branch_name example_info = strip (u "feature/x") /\
  (unpadded (u "feature/x") = true ->
   branch_name example_info = u "feature/x") /\
  forall w',
    (forall c, In c (git_commands (u "main")) ->
               run_process w' c =
               run_process (example_world None (Response [])) c) ->
    get_git_info w' (u "main") =
    (map Subprocess (git_commands (u "main")), Return (Some example_info)).
Proof.
  refine (@branch_name_is_stripped_output
            (example_world None (Response [])) (u "main") (u "feature/x") []
            (map Subprocess (git_commands (u "main"))) example_info _ _).
  - reflexivity.
  - vm_compute. reflexivity.
Defined.

(** C7.  The branch name returned is not always the name of the branch
    checked out: on a branch whose name ends with a no-break space, which git
    prints followed by a newline, the inspector succeeds and [strip] takes
    the no-break space away with the newline, so that the name returned lacks
    its last character. *)
Lemma branch_name_loses_trailing_nbsp :
  run_process nbsp_world rev_parse_cmd = Exited 0 (nbsp_branch ++ NL) [] /\
  outcome (get_git_info nbsp_world (u "main")) =
    Return (Some {| branch_name := [120]; commit_logs := u "fix bug";
                    code_diff := [] |}) /\
  nbsp_branch = [120; 160] /\
  eqb [120] nbsp_branch = false.
Proof. repeat (split; [vm_compute; reflexivity|]). vm_compute. reflexivity. Qed.




(** ** Checks on concrete inputs *)

Example u_ascii : u "git" = [103; 105; 116].
Proof. reflexivity. Qed.

Example u_hangul : u "오류" = [50724; 47448].
Proof. reflexivity. Qed.

Example u_emoji : u "✅" = [9989].
Proof. reflexivity. Qed.

Example strip_newline : strip (u "feature/x" ++ NL) = u "feature/x".
Proof. vm_compute. reflexivity. Qed.

Example strip_all_blank : strip [32; 10; 9] = [].
Proof. reflexivity. Qed.

Example splitlines_empty : splitlines [] = [].
Proof. reflexivity. Qed.

Example splitlines_two :
  splitlines (u "fix bug" ++ NL ++ u "add test") = [u "fix bug"; u "add test"].
Proof. vm_compute. reflexivity. Qed.

Example splitlines_crlf : splitlines [97; 13; 10; 98; 10] = [[97]; [98]].
Proof. reflexivity. Qed.

Example splitlines_blank_line : splitlines [97; 10; 10; 98] = [[97]; []; [98]].
Proof. reflexivity. Qed.

Example split_trailing_newline : split 10 [97; 10] = [[97]; []].
Proof. reflexivity. Qed.

Example str_of_nat_12 : str_of_nat 12 = u "12".
Proof. reflexivity. Qed.

Example str_of_nat_0 : str_of_nat 0 = u "0".
Proof. reflexivity. Qed.

Example parse_args_dashes_then_option :
  parse_args (example_world None (Response [])) [u "--"; u "-h"] =
  ([], Return {| base_branch := u "-h" |}).
Proof. vm_compute. reflexivity. Qed.

Example parse_args_abbreviated_help :
  parse_args (example_world None (Response [])) [u "--he"] =
  ([ArgparseHelp], Raise (SystemExit 0)).
Proof. vm_compute. reflexivity. Qed.

Example parse_args_unknown_option :
  parse_args (example_world None (Response [])) [u "--verbose"] =
  ([ArgparseUsageError], Raise (SystemExit 2)).
Proof. vm_compute. reflexivity. Qed.

Example parse_args_negative_number :
  parse_args (example_world None (Response [])) [u "-1"] =
  ([], Return {| base_branch := u "-1" |}).
Proof. vm_compute. reflexivity. Qed.

(** A complete run: three git commands, one request, ten lines printed
    and the reply among them. *)
Example main_full_run :
  let w := example_world (Some (u "sk-test")) (Response [Some (u "PR text")]) in
  subprocess_calls (trace (main w [])) = git_commands (u "main") /\
  network_calls (trace (main w [])) = 1%nat /\
  List.length (printed (trace (main w []))) = 10%nat /\
  nth_error (printed (trace (main w []))) 8 = Some (u "PR text") /\
  outcome (main w []) = Return tt.
Proof. cbv zeta. repeat (split; [vm_compute; reflexivity|]). vm_compute. reflexivity. Qed.

(** An interrupt during the request is not caught: it leaves
    [generate_pr_message] and the interpreter ends itself with SIGINT. *)
Example main_interrupted :
  let interrupt := {| raised_class_of := KeyboardInterrupt; error_str := [] |} in
  let w := example_world (Some (u "sk-test")) (ChatRaises interrupt) in
  outcome (main w []) = Raise (Completion (Remote interrupt)) /\
  exit_status (outcome (main w [])) = 130%Z.
Proof. cbv zeta. split; vm_compute; reflexivity. Qed.

(** * Further properties of the program *)

(** ** What [strip] leaves *)

Section StripFacts.

Lemma lstrip_suffix (s : pystr) : exists pre, s = pre ++ lstrip s.
Proof.
  induction s as [|c s [pre IH]]; [now exists []|].
  cbn [lstrip]. destruct (isspace c).
  - exists (c :: pre). cbn [app]. now rewrite <- IH.
  - now exists [].
Qed.

Lemma rstrip_prefix (s : pystr) : exists post, s = rstrip s ++ post.
Proof.
  unfold rstrip. destruct (lstrip_suffix (rev s)) as [pre E].
  exists (rev pre).
  rewrite <- rev_app_distr, <- E. now rewrite rev_involutive.
Qed.

(** The result of [strip] neither starts nor ends with whitespace. *)
Lemma unpadded_strip (s : pystr) : unpadded (strip s) = true.
Proof.
  destruct (strip s) as [|c r] eqn:E; [reflexivity|].
  cbn [unpadded]. apply andb_true_iff. split; apply negb_true_iff.
  - unfold strip in E. destruct (rstrip_prefix (lstrip s)) as [post P].
    rewrite E in P. exact (lstrip_head s P).
  - destruct (exists_last (l := c :: r) ltac:(discriminate)) as (l & x & L).
    rewrite L in E |- *. rewrite last_last. exact (@strip_last _ _ _ E).
Qed.

(** [strip] changes nothing in a text without surrounding whitespace. *)
Lemma strip_unpadded (s : pystr) : unpadded s = true -> strip s = s.
Proof.
  destruct s as [|c r]; [reflexivity|].
  intros H. apply andb_true_iff in H. destruct H as [Hh Hl].
  apply negb_true_iff in Hh, Hl.
  unfold strip, rstrip.
  rewrite (lstrip_fixed (s := c :: r) (c := c) (r := r) eq_refl Hh).
  destruct (exists_last (l := c :: r) ltac:(discriminate)) as (l & x & E).
  rewrite E in Hl |- *. rewrite last_last in Hl.
  rewrite rev_app_distr. cbn [rev app lstrip]. rewrite Hl.
  change (x :: rev l) with ([x] ++ rev l).
  rewrite rev_app_distr, rev_involutive. reflexivity.
Qed.

Lemma linebreak_is_space (c : N) : is_linebreak c = true -> isspace c = true.
Proof.
  unfold is_linebreak, isspace. intros H.
  repeat (apply orb_true_iff in H; destruct H as [H|H]).
  - apply andb_true_iff in H. destruct H as [H1 H2].
    apply N.leb_le in H1, H2.
    assert (A : (9 <=? c) && (c <=? 13) = true)
      by (apply andb_true_iff; split; apply N.leb_le; lia).
    now rewrite A.
  - apply andb_true_iff in H. destruct H as [H1 H2].
    apply N.leb_le in H1, H2.
    assert (A : (28 <=? c) && (c <=? 32) = true)
      by (apply andb_true_iff; split; apply N.leb_le; lia).
    rewrite A. now rewrite orb_true_r.
  - apply N.eqb_eq in H. now subst c.
  - apply N.eqb_eq in H. now subst c.
  - apply N.eqb_eq in H. now subst c.
Qed.

End StripFacts.

(** ** Lines and newline-separated entries *)

Section LineBounds.

Lemma split_from_length_cur (sep : N) (s cur cur' : pystr) :
  List.length (split_from sep cur s) = List.length (split_from sep cur' s).
Proof.
  revert cur cur'. induction s as [|c s IH]; intros cur cur'; [reflexivity|].
  cbn [split_from]. destruct (c =? sep); cbn [List.length]; auto.
Qed.

Lemma split_from_nonempty (sep : N) (s cur : pystr) :
  (1 <= List.length (split_from sep cur s))%nat.
Proof.
  revert cur. induction s as [|c s IH]; intros cur; cbn [split_from].
  - cbn. lia.
  - destruct (c =? sep); [cbn; lia|apply IH].
Qed.

Lemma splitlines_from_nonempty (s cur : pystr) :
  cur <> [] -> (1 <= List.length (splitlines_from cur s))%nat.
Proof.
  revert cur. induction s as [|c s IH]; intros cur H; cbn [splitlines_from].
  - destruct cur; [congruence|cbn; lia].
  - destruct (c =? 13); [destruct s as [|d s']; [|destruct (d =? 10)]; cbn; lia|].
    destruct (is_linebreak c); [cbn; lia|].
    apply IH. discriminate.
Qed.

Lemma ends_on_linebreak_last (b : bool) (l : pystr) (c : N) :
  ends_on_linebreak b (l ++ [c]) = is_linebreak c.
Proof. revert b. induction l as [|d l IH]; intros b; simpl; auto. Qed.

(** [split] on the newline never yields more pieces than [splitlines]
    yields lines, but for the piece after a final line boundary. *)
Lemma split_le_splitlines (n : nat) :
  forall s cur, (List.length s <= n)%nat ->
  (List.length (split_from 10 cur s) <=
   List.length (splitlines_from cur s) +
   if ends_on_linebreak (match cur with [] => true | _ => false end) s
   then 1 else 0)%nat.
Proof.
  induction n as [|n IH]; intros s cur Hn.
  - destruct s; [|cbn in Hn; lia]. destruct cur; cbn; lia.
  - destruct s as [|c r]; [destruct cur; cbn; lia|].
    cbn [List.length] in Hn.
    cbn [split_from splitlines_from ends_on_linebreak].
    destruct (c =? 13) eqn:E13.
    + apply N.eqb_eq in E13. subst c.
      change (13 =? 10) with false. change (is_linebreak 13) with true.
      cbn iota.
      destruct r as [|d r'].
      * cbn. lia.
      * cbn [split_from ends_on_linebreak]. destruct (d =? 10) eqn:E10.
        -- apply N.eqb_eq in E10. subst d.
           change (is_linebreak 10) with true.
           cbn [List.length] in Hn |- *.
           specialize (IH r' [] ltac:(lia)). cbn iota in IH. lia.
        -- specialize (IH (d :: r') [] ltac:(lia)).
           cbn [split_from ends_on_linebreak] in IH. rewrite E10 in IH.
           cbn [List.length].
           rewrite (split_from_length_cur 10 r' (d :: 13 :: cur) [d]). lia.
    + destruct (c =? 10) eqn:E10.
      * apply N.eqb_eq in E10. subst c. change (is_linebreak 10) with true.
        cbn iota. cbn [List.length].
        specialize (IH r [] ltac:(lia)). cbn iota in IH. lia.
      * destruct (is_linebreak c) eqn:EL.
        -- cbn [List.length].
           specialize (IH r [] ltac:(lia)). cbn iota in IH.
           rewrite (split_from_length_cur 10 r (c :: cur) []).
           destruct r as [|d r'].
           ++ cbn. lia.
           ++ cbn [ends_on_linebreak] in IH |- *. lia.
        -- specialize (IH r (c :: cur) ltac:(lia)). cbn iota in IH.
           destruct r as [|d r'].
           ++ cbn in IH |- *. lia.
           ++ cbn [ends_on_linebreak] in IH |- *. exact IH.
Qed.

(** After [strip] there are at least as many lines as newline-separated
    entries. *)
Lemma newline_entries_le_lines (out : pystr) :
  (newline_entries (strip out) <= List.length (splitlines (strip out)))%nat.
Proof.
  unfold newline_entries, splitlines, split.
  destruct (strip out) as [|c r] eqn:E; [cbn; lia|].
  pose proof (@split_le_splitlines _ (c :: r) [] (le_n _)) as B.
  destruct (exists_last (l := c :: r) ltac:(discriminate)) as (l & x & L).
  rewrite L in *. rewrite ends_on_linebreak_last in B.
  destruct (is_linebreak x) eqn:X; [|lia].
  apply linebreak_is_space in X.
  rewrite (@strip_last _ _ _ E) in X. discriminate.
Qed.

(** A text has no line exactly when it is empty. *)
Lemma splitlines_none (s : pystr) :
  List.length (splitlines s) = 0%nat <-> s = [].
Proof.
  split; [|intros ->; reflexivity].
  unfold splitlines. destruct s as [|c r]; [reflexivity|].
  cbn [splitlines_from].
  destruct (c =? 13); [destruct r as [|d r']; [|destruct (d =? 10)]; discriminate|].
  destruct (is_linebreak c); [discriminate|].
  pose proof (@splitlines_from_nonempty r [c] ltac:(discriminate)). lia.
Qed.

End LineBounds.

(** ** More on the Repository Inspector *)

(** X1.  How [get_git_info] ends is decided by the three commands alone: it
    returns a GitInfo exactly when all three exit with status 0, it returns
    [None] exactly when the first command that does not succeed fails in a
    handled way (non-zero status, or executable not found), and otherwise it
    raises the error of [subprocess.run] unhandled; it raises nothing else. *)
Theorem get_git_info_outcome (w : World) (base : pystr) :
  ((exists info, outcome (get_git_info w base) = Return (Some info)) <->
   forallb (fun c => succeeded (run_process w c)) (git_commands base) = true) /\
  (outcome (get_git_info w base) = Return None <->
   inspector_fails w base = true) /\
  ((exists e, outcome (get_git_info w base) = Raise e) <->
   forallb (fun c => succeeded (run_process w c)) (git_commands base) = false /\
   inspector_fails w base = false) /\
  (forall e, outcome (get_git_info w base) = Raise e ->
             exists msg, e = RunError msg).
Proof.
  unfold inspector_fails, handled_failure, succeeded, git_commands.
  cbn [forallb]. unfold_inspector.
  run_cases w base; cbn; rewrite ?E; cbn;
    (split; [|split; [|split]]);
    try (split; intros H); try (intros e H);
    try discriminate; try reflexivity;
    try (destruct H; discriminate);
    try (eexists; reflexivity);
    try (split; reflexivity);
    try (injection H as <-; eexists; reflexivity).
Qed.

(** X2.  An error of [subprocess.run] that [get_git_info] does not handle
    ends the run: the driver has printed its two progress lines and nothing
    else, the Completion Client is never entered, the exception leaves the
    script and the exit status is 1. *)
Theorem unhandled_inspector_error_ends_the_run (w : World)
    (argv : list pystr) (ns : Namespace) (e : run_exn) :
  outcome (parse_args w argv) = Return ns ->
  outcome (get_git_info w (base_branch ns)) = Raise e ->
  outcome (main w argv) = Raise (Inspector e) /\
  exit_status (outcome (main w argv)) = 1%Z /\
  printed (trace (main w argv)) =
    [u "✅ 기준 브랜치: '" ++ base_branch ns ++ u "'";
     u "Git 정보를 수집 중입니다..."] /\
  filter is_completion_client_event (trace (main w argv)) = [].
Proof.
  intros Hp He. apply parse_args_return in Hp.
  pose proof (get_git_info_no_client_event w (base_branch ns)) as Hc.
  assert (Hq : printed (trace (get_git_info w (base_branch ns))) = []).
  { revert He. unfold_inspector.
    run_cases w (base_branch ns); cbn; intros [=]; reflexivity. }
  unfold main. rewrite Hp.
  unfold bind, lift, print, emit, ret.
  destruct (get_git_info w (base_branch ns)) as [tr r].
  unfold outcome, trace in *. cbn [fst snd] in *. subst r.
  cbn [fst snd app printed filter is_completion_client_event].
  rewrite Hq, Hc. repeat split.
Qed.

Lemma unhandled_inspector_error_ends_the_run_witness :
  outcome (main locked_git_world []) =
    Raise (Inspector (RunError (u "Permission denied"))) /\
  exit_status (outcome (main locked_git_world [])) = 1%Z /\
  printed (trace (main locked_git_world [])) =
    [u "✅ 기준 브랜치: '" ++ base_branch {| base_branch := u "main" |} ++ u "'";
     u "Git 정보를 수집 중입니다..."] /\
  filter is_completion_client_event (trace (main locked_git_world [])) = [].
Proof.
  refine (@unhandled_inspector_error_ends_the_run locked_git_world []
            {| base_branch := u "main" |}
            (RunError (u "Permission denied")) _ _); reflexivity.
Defined.

(** X3.  In a GitInfo returned by the inspector the branch name and the
    commit logs neither start nor end with a whitespace character, so that
    stripping them again changes nothing, whereas the diff is the output of
    the diff command exactly as git printed it, surrounding whitespace and
    final newline included. *)
Theorem git_info_fields (w : World) (base : pystr) (tr : list event)
    (info : GitInfo) :
  get_git_info w base = (tr, Return (Some info)) ->
  unpadded (branch_name info) = true /\
  unpadded (commit_logs info) = true /\
  strip (branch_name info) = branch_name info /\
  strip (commit_logs info) = commit_logs info /\
  exists err,
    run_process w (diff_cmd base) = Exited 0 (code_diff info) err.
Proof.
  intros Hg.
  destruct (get_git_info_success _ _ Hg)
    as (o1 & e1 & o2 & e2 & o3 & e3 & _ & _ & R3 & -> & _).
  cbn [branch_name commit_logs code_diff].
  repeat split; try apply unpadded_strip;
    try (apply strip_unpadded, unpadded_strip).
  exists e3. exact R3.
Qed.

Lemma git_info_fields_witness :
  unpadded (branch_name example_info) = true /\
  unpadded (commit_logs example_info) = true /\
  strip (branch_name example_info) = branch_name example_info /\
  strip (commit_logs example_info) = commit_logs example_info /\
  exists err,
    run_process (example_world None (Response [])) (diff_cmd (u "main")) =
    Exited 0 (code_diff example_info) err.
Proof.
  refine (@git_info_fields (example_world None (Response [])) (u "main")
            (map Subprocess (git_commands (u "main"))) example_info _).
  vm_compute. reflexivity.
Defined.

Lemma get_git_info_no_network (w : World) (base : pystr) :
  network_calls (trace (get_git_info w base)) = 0%nat.
Proof. unfold_inspector. run_cases w base; reflexivity. Qed.

(** X4.  The inspector prints exactly when it returns [None], and then one
    line; it never reads the environment, builds a client or calls the
    network. *)
Theorem inspector_prints_only_on_failure (w : World) (base : pystr) :
  (outcome (get_git_info w base) = Return None ->
   exists msg, printed (trace (get_git_info w base)) = [msg]) /\
  (outcome (get_git_info w base) <> Return None ->
   printed (trace (get_git_info w base)) = []) /\
  filter is_completion_client_event (trace (get_git_info w base)) = [] /\
  network_calls (trace (get_git_info w base)) = 0%nat.
Proof.
  split; [|split; [|split]].
  - unfold_inspector. run_cases w base; cbn; intros [=]; eexists; reflexivity.
  - unfold_inspector. run_cases w base; cbn; intros H;
      try reflexivity; exfalso; apply H; reflexivity.
  - apply get_git_info_no_client_event.
  - apply get_git_info_no_network.
Qed.

Lemma inspector_prints_only_on_failure_witness :
  exists msg, printed (trace (get_git_info no_git_world (u "main"))) = [msg].
Proof.
  refine (proj1 (inspector_prints_only_on_failure no_git_world (u "main")) _).
  reflexivity.
Defined.

(** X5.  The message printed for a failing git command carries the standard
    error of that very command, and the commands after it are not run; when
    the executable is missing the first command is the only one attempted. *)
Theorem failure_message_carries_stderr (w : World) (base : pystr) :
  (forall rc out err,
     run_process w rev_parse_cmd = Exited rc out err -> rc <> 0%Z ->
     get_git_info w base =
     ([Subprocess rev_parse_cmd; Stdout (GIT_COMMAND_FAILED ++ err)],
      Return None)) /\
  (forall rc out err,
     succeeded (run_process w rev_parse_cmd) = true ->
     run_process w (log_cmd base) = Exited rc out err -> rc <> 0%Z ->
     get_git_info w base =
     ([Subprocess rev_parse_cmd; Subprocess (log_cmd base);
       Stdout (GIT_COMMAND_FAILED ++ err)],
      Return None)) /\
  (forall rc out err,
     succeeded (run_process w rev_parse_cmd) = true ->
     succeeded (run_process w (log_cmd base)) = true ->
     run_process w (diff_cmd base) = Exited rc out err -> rc <> 0%Z ->
     get_git_info w base =
     ([Subprocess rev_parse_cmd; Subprocess (log_cmd base);
       Subprocess (diff_cmd base); Stdout (GIT_COMMAND_FAILED ++ err)],
      Return None)) /\
  (run_process w rev_parse_cmd = NotStarted NoSuchFile ->
   get_git_info w base =
   ([Subprocess rev_parse_cmd; Stdout GIT_NOT_INSTALLED], Return None)).
Proof.
  unfold succeeded.
  split; [|split; [|split]].
  - intros rc out err R Hrc. apply Z.eqb_neq in Hrc.
    unfold_inspector. rewrite R, Hrc. reflexivity.
  - intros rc out err S1 R Hrc. apply Z.eqb_neq in Hrc.
    unfold_inspector.
    destruct (run_process w rev_parse_cmd) as [rc1 o1 e1|]; [|discriminate].
    rewrite S1. cbn. rewrite R, Hrc. reflexivity.
  - intros rc out err S1 S2 R Hrc. apply Z.eqb_neq in Hrc.
    unfold_inspector.
    destruct (run_process w rev_parse_cmd) as [rc1 o1 e1|]; [|discriminate].
    rewrite S1. cbn.
    destruct (run_process w (log_cmd base)) as [rc2 o2 e2|]; [|discriminate].
    rewrite S2. cbn. rewrite R, Hrc. reflexivity.
  - intros R. unfold_inspector. rewrite R. reflexivity.
Qed.

Lemma failure_message_carries_stderr_witness :
  get_git_info (example_world None (Response [])) (u "no-such-branch") =
  ([Subprocess rev_parse_cmd; Subprocess (log_cmd (u "no-such-branch"));
    Stdout (GIT_COMMAND_FAILED ++ u "fatal: bad revision")],
   Return None).
Proof.
  refine (proj1 (proj2 (failure_message_carries_stderr
                          (example_world None (Response []))
                          (u "no-such-branch")))
            128%Z [] (u "fatal: bad revision") _ _ _).
  - reflexivity.
  - vm_compute. reflexivity.
  - discriminate.
Defined.

(** X6.  The count printed for a GitInfo returned by the inspector is never
    smaller than the number of newline-separated entries of its commit logs,
    and it is 0 exactly when the commit logs are empty. *)
Theorem commit_count_lower_bound (w : World) (base : pystr)
    (tr : list event) (info : GitInfo) :
  get_git_info w base = (tr, Return (Some info)) ->
  (newline_entries (commit_logs info) <= commit_count info)%nat /\
  (commit_count info = 0%nat <-> commit_logs info = []).
Proof.
  intros Hg.
  destruct (get_git_info_success _ _ Hg)
    as (o1 & e1 & o2 & e2 & o3 & e3 & _ & _ & _ & -> & _).
  unfold commit_count. cbn [commit_logs].
  split; [apply newline_entries_le_lines|apply splitlines_none].
Qed.

Lemma commit_count_lower_bound_witness :
  Nat.le (newline_entries [97; 12; 98])
         (commit_count {| branch_name := u "topic";
                          commit_logs := [97; 12; 98];
                          code_diff := [] |}) /\
  (commit_count {| branch_name := u "topic"; commit_logs := [97; 12; 98];
                   code_diff := [] |} = 0%nat <->
   [97; 12; 98] = []).
Proof.
  refine (@commit_count_lower_bound formfeed_world (u "main")
            (map Subprocess (git_commands (u "main")))
            {| branch_name := u "topic"; commit_logs := [97; 12; 98];
               code_diff := [] |} _).
  vm_compute. reflexivity.
Defined.

(** ** More on the Completion Client *)

(** X7.  Whatever the world, [generate_pr_message] makes at most one network
    call, and makes it exactly when the credential is a non-empty string and
    the client is constructed from it: when the constructor raises, the
    exception leaves the function, whatever its class, and no request is
    sent.  The function prints nothing and runs no command; the client is
    built with the credential as read from the environment, and the only
    request sent uses the fixed model and a single user message holding the
    prompt. *)
Theorem client_effects_are_bounded (w : World) (git_info : GitInfo) :
  (network_calls (trace (generate_pr_message w git_info)) <= 1)%nat /\
  (network_calls (trace (generate_pr_message w git_info)) = 1%nat <->
   request_is_sent w = true) /\
  (forall key e,
     environ w (u "OPENAI_API_KEY") = Some key -> key <> [] ->
     new_client w key = Some e ->
     generate_pr_message w git_info =
     ([Getenv (u "OPENAI_API_KEY"); NewClient key], Raise (Remote e))) /\
  printed (trace (generate_pr_message w git_info)) = [] /\
  subprocess_calls (trace (generate_pr_message w git_info)) = [] /\
  forall ev, In ev (trace (generate_pr_message w git_info)) ->
    ev = Getenv (u "OPENAI_API_KEY") \/
    exists key,
      environ w (u "OPENAI_API_KEY") = Some key /\ key <> [] /\
      (ev = NewClient key \/
       new_client w key = None /\
       ev = ChatCompletion key MODEL
              [{| role := u "user"; content := compose_prompt git_info |}]).
Proof.
  destruct (generate_never_runs_git w git_info) as [Hs Hq].
  assert (F : forall key e,
     environ w (u "OPENAI_API_KEY") = Some key -> key <> [] ->
     new_client w key = Some e ->
     generate_pr_message w git_info =
     ([Getenv (u "OPENAI_API_KEY"); NewClient key], Raise (Remote e)))
    by (intros key e; apply generate_client_fails).
  unfold request_is_sent.
  destruct (truthy (environ w (u "OPENAI_API_KEY"))) eqn:T.
  - destruct (environ w (u "OPENAI_API_KEY")) as [[|k key]|] eqn:E;
      try discriminate.
    destruct (new_client w (k :: key)) as [r|] eqn:C.
    + rewrite (generate_client_fails w git_info E ltac:(discriminate) C) in *.
      unfold trace in *; cbn [fst] in *.
      split; [cbn; lia|]. split; [split; discriminate|].
      split; [exact F|]. split; [exact Hq|]. split; [exact Hs|].
      intros ev [<-|[<-|[]]]; [left; reflexivity|].
      right. exists (k :: key).
      split; [reflexivity|split; [discriminate|left; reflexivity]].
    + rewrite (generate_with_key w git_info E ltac:(discriminate) C) in *.
      unfold trace in *; cbn [fst] in *.
      split; [cbn; lia|]. split; [split; reflexivity|].
      split; [exact F|]. split; [exact Hq|]. split; [exact Hs|].
      intros ev [<-|[<-|[<-|[]]]]; [left; reflexivity| |];
        right; exists (k :: key);
        (split; [reflexivity|split; [discriminate|]]);
        [left; reflexivity|right; split; [exact C|reflexivity]].
  - rewrite (generate_without_key w git_info T) in *.
    unfold trace in *; cbn [fst] in *.
    split; [cbn; lia|].
    split; [split; [discriminate|];
            destruct (environ w (u "OPENAI_API_KEY")) as [[|k key]|];
            discriminate|].
    split; [exact F|]. split; [exact Hq|]. split; [exact Hs|].
    intros ev [<-|[]]. left. reflexivity.
Qed.

Lemma client_effects_are_bounded_witness :
  generate_pr_message no_client_world example_info =
  ([Getenv (u "OPENAI_API_KEY"); NewClient (u "sk-test")],
   Raise (Remote client_error)).
Proof.
  refine (proj1 (proj2 (proj2 (client_effects_are_bounded
                                 no_client_world example_info)))
            (u "sk-test") client_error _ _ _).
  - reflexivity.
  - discriminate.
  - reflexivity.
Defined.

(** ** More on the driver *)

Section DriverFacts.

Variable w : World.

Lemma printed_app (a b : list event) :
  printed (a ++ b) = printed a ++ printed b.
Proof.
  induction a as [|ev a IH]; [reflexivity|].
  destruct ev; cbn; rewrite ?IH; reflexivity.
Qed.

Lemma printed_subprocesses (cs : list (list pystr)) :
  printed (map Subprocess cs) = [].
Proof. induction cs as [|c cs IH]; [reflexivity|exact IH]. Qed.

End DriverFacts.

(** A request that fails with an [Exception] yields the call-failed
    message, and nothing is printed meanwhile. *)
Lemma failed_request_message (w : World) (info : GitInfo)
    (key : pystr) (e : api_exn) :
  environ w (u "OPENAI_API_KEY") = Some key -> key <> [] ->
  try_block_error w key info = Some e -> is_Exception e = true ->
  outcome (generate_pr_message w info) =
    Return (Some (CALL_FAILED ++ exn_str e)) /\
  printed (trace (generate_pr_message w info)) = [].
Proof.
  intros Hk Hne Ht He.
  split; [|exact (proj2 (generate_never_runs_git w info))].
  rewrite (generate_with_key w info Hk Hne (try_block_reached _ _ _ Ht)).
  unfold outcome; cbn [snd]. unfold try_block_error in Ht.
  rewrite (try_block_reached _ _ _ Ht) in Ht.
  destruct (chat_service w key MODEL _) as [[|c cs]|r]; try discriminate;
    injection Ht as <-; cbn [exn_str]; [reflexivity|].
  cbn [is_Exception] in He. now rewrite He.
Qed.

(** X8.  When the inspector succeeds, the credential is set, the client is
    constructed and the service answers with choices, the function returns
    the content of the first choice unchanged and ignores the others, and the
    driver prints exactly
    ten lines: the two progress lines, the branch, the commit count, the
    announcement, and the reply framed by three rules of fifty [=] signs; a
    reply without content is printed as the text None.  The run makes one
    network call and returns normally. *)
Theorem reply_is_printed (w : World) (argv : list pystr) (ns : Namespace)
    (tr : list event) (info : GitInfo) (key : pystr)
    (c : option pystr) (cs : list (option pystr)) :
  outcome (parse_args w argv) = Return ns ->
  get_git_info w (base_branch ns) = (tr, Return (Some info)) ->
  environ w (u "OPENAI_API_KEY") = Some key -> key <> [] ->
  new_client w key = None ->
  chat_service w key MODEL
    [{| role := u "user"; content := compose_prompt info |}] =
    Response (c :: cs) ->
  outcome (generate_pr_message w info) = Return c /\
  printed (trace (main w argv)) =
    [u "✅ 기준 브랜치: '" ++ base_branch ns ++ u "'";
     u "Git 정보를 수집 중입니다...";
     u "브랜치: " ++ branch_name info;
     u "커밋 수: " ++ str_of_nat (commit_count info) ++ u "개";
     NL ++ u "OPENAI API를 통해 PR 메시지를 생성합니다...";
     NL ++ repeat_str (u "=") 50;
     u "✨ 생성된 PR 메시지 ✨";
     repeat_str (u "=") 50;
     match c with Some s => s | None => u "None" end;
     repeat_str (u "=") 50] /\
  network_calls (trace (main w argv)) = 1%nat /\
  outcome (main w argv) = Return tt.
Proof.
  intros Hp Hg Hk Hne Hn Hc.
  pose proof (generate_with_key w info Hk Hne Hn) as G. rewrite Hc in G.
  destruct (get_git_info_success _ _ Hg)
    as (o1 & e1 & o2 & e2 & o3 & e3 & _ & _ & _ & _ & ->).
  rewrite (main_inspector_some w _ Hp Hg), G.
  unfold trace, outcome; cbn [fst snd].
  split; [reflexivity|]. split; [|split; [|reflexivity]].
  - rewrite !printed_app, printed_subprocesses.
    destruct c; reflexivity.
  - rewrite !network_calls_app, network_calls_subprocesses. reflexivity.
Qed.

Lemma reply_is_printed_witness :
  outcome (generate_pr_message
             (example_world (Some (u "sk-test")) (Response [None; Some (u "x")]))
             example_info) = Return None /\
  nth_error
    (printed (trace (main (example_world (Some (u "sk-test"))
                                         (Response [None; Some (u "x")])) [])))
    8 = Some (u "None").
Proof.
  pose proof (@reply_is_printed
                (example_world (Some (u "sk-test"))
                               (Response [None; Some (u "x")]))
                [] {| base_branch := u "main" |}
                (map Subprocess (git_commands (u "main"))) example_info
                (u "sk-test") None [Some (u "x")]) as T.
  destruct T as (T1 & T2 & _).
  - reflexivity.
  - vm_compute. reflexivity.
  - vm_compute. reflexivity.
  - discriminate.
  - reflexivity.
  - reflexivity.
  - split; [exact T1|]. rewrite T2. reflexivity.
Defined.

(** X9.  A request that fails with an exception deriving from [Exception]
    does not fail the run: the driver prints the call-failed message with the
    text of the error in place of the reply, and the script returns normally
    with exit status 0. *)
Theorem failed_request_does_not_fail_the_run (w : World) (argv : list pystr)
    (ns : Namespace) (tr : list event) (info : GitInfo) (key : pystr)
    (e : api_exn) :
  outcome (parse_args w argv) = Return ns ->
  get_git_info w (base_branch ns) = (tr, Return (Some info)) ->
  environ w (u "OPENAI_API_KEY") = Some key -> key <> [] ->
  try_block_error w key info = Some e ->
  is_Exception e = true ->
  nth_error (printed (trace (main w argv))) 8 =
    Some (CALL_FAILED ++ exn_str e) /\
  List.length (printed (trace (main w argv))) = 10%nat /\
  outcome (main w argv) = Return tt /\
  exit_status (outcome (main w argv)) = 0%Z.
Proof.
  intros Hp Hg Hk Hne Ht He.
  destruct (failed_request_message w info Hk Hne Ht He) as [G1 G2].
  destruct (get_git_info_success _ _ Hg)
    as (o1 & e1 & o2 & e2 & o3 & e3 & _ & _ & _ & _ & ->).
  rewrite (main_inspector_some w _ Hp Hg).
  unfold trace, outcome in *. cbn [fst snd]. rewrite G1.
  rewrite !printed_app, printed_subprocesses, G2.
  repeat split.
Qed.

Lemma failed_request_does_not_fail_the_run_witness :
  nth_error
    (printed (trace (main (example_world (Some (u "sk-test"))
                                         (ChatRaises connection_error)) [])))
    8 = Some (CALL_FAILED ++ exn_str (Remote connection_error)) /\
  List.length
    (printed (trace (main (example_world (Some (u "sk-test"))
                                         (ChatRaises connection_error)) [])))
    = 10%nat /\
  outcome (main (example_world (Some (u "sk-test"))
                               (ChatRaises connection_error)) []) =
    Return tt /\
  exit_status
    (outcome (main (example_world (Some (u "sk-test"))
                                  (ChatRaises connection_error)) [])) = 0%Z.
Proof.
  refine (@failed_request_does_not_fail_the_run
            (example_world (Some (u "sk-test")) (ChatRaises connection_error))
            [] {| base_branch := u "main" |}
            (map Subprocess (git_commands (u "main"))) example_info
            (u "sk-test") (Remote connection_error) _ _ _ _ _ _).
  - reflexivity.
  - vm_compute. reflexivity.
  - vm_compute. reflexivity.
  - discriminate.
  - reflexivity.
  - reflexivity.
Defined.

(** X10.  A run makes a network call only when the command line was
    accepted, the inspector returned a GitInfo, the credential is a non-empty
    string and the client is constructed from it, and then it makes exactly
    one; in every other case, a constructor that raises included, it makes
    none. *)
Theorem network_call_condition (w : World) (argv : list pystr) :
  network_calls (trace (main w argv)) =
  match outcome (parse_args w argv) with
  | Return ns =>
    match outcome (get_git_info w (base_branch ns)) with
    | Return (Some _) => if request_is_sent w then 1%nat else 0%nat
    | _ => 0%nat
    end
  | Raise _ => 0%nat
  end.
Proof.
  destruct (outcome (parse_args w argv)) as [ns|e] eqn:Hp.
  - destruct (get_git_info w (base_branch ns)) as [tr [[info|]|e]] eqn:Hg;
      unfold outcome at 1; cbn [snd].
    + rewrite (main_inspector_some w _ Hp Hg). unfold trace; cbn [fst].
      pose proof (get_git_info_no_network w (base_branch ns)) as I.
      rewrite Hg in I. unfold trace in I; cbn [fst] in I.
      change (?a :: ?b :: ?l) with ([a; b] ++ l).
      rewrite !network_calls_app, I.
      unfold request_is_sent.
      destruct (truthy (environ w (u "OPENAI_API_KEY"))) eqn:T.
      * destruct (environ w (u "OPENAI_API_KEY")) as [[|k key]|] eqn:E;
          try discriminate.
        destruct (new_client w (k :: key)) as [r|] eqn:C.
        -- rewrite (generate_client_fails w info E ltac:(discriminate) C).
           reflexivity.
        -- rewrite (generate_with_key w info E ltac:(discriminate) C).
           unfold outcome; cbn [fst snd].
           destruct (chat_service w (k :: key) MODEL _) as [[|c cs]|r];
             try reflexivity.
           destruct (derives_from_Exception r); reflexivity.
      * rewrite (generate_without_key w info T).
        destruct (environ w (u "OPENAI_API_KEY")) as [[|k key]|];
          try discriminate; reflexivity.
    + rewrite (main_inspector_none w _ Hp Hg). unfold trace; cbn [fst].
      pose proof (get_git_info_no_network w (base_branch ns)) as I.
      rewrite Hg in I. unfold trace in I; cbn [fst] in I.
      change (?a :: ?b :: ?l) with ([a; b] ++ l).
      rewrite !network_calls_app, I. reflexivity.
    + pose proof (get_git_info_no_network w (base_branch ns)) as I.
      rewrite Hg in I. unfold trace in I; cbn [fst] in I.
      apply parse_args_return in Hp.
      unfold main. rewrite Hp.
      unfold bind, lift, print, emit, ret. rewrite Hg.
      unfold trace; cbn [fst app].
      change (?a :: ?b :: ?l) with ([a; b] ++ l).
      rewrite !network_calls_app, I. reflexivity.
  - destruct (parse_args_raise w _ Hp) as (code & Hc & -> & P).
    unfold main. rewrite P. destruct Hc as [-> | ->]; reflexivity.
Qed.

(** X11.  When the argument parser exits (help text, or usage error), the
    script does nothing else: no progress line is printed, no git command is
    run, nothing is read from the environment and no request is sent; the
    exit status is argparse's, 0 after the help text and 2 after an error. *)
Theorem parser_exit_skips_the_run (w : World) (argv : list pystr) (e : exn) :
  outcome (parse_args w argv) = Raise e ->
  main w argv = (trace (parse_args w argv), Raise e) /\
  printed (trace (main w argv)) = [] /\
  subprocess_calls (trace (main w argv)) = [] /\
  filter is_completion_client_event (trace (main w argv)) = [] /\
  (exit_status (outcome (main w argv)) = 0%Z /\
   trace (main w argv) = [ArgparseHelp] \/
   exit_status (outcome (main w argv)) = 2%Z /\
   trace (main w argv) = [ArgparseUsageError]).
Proof.
  intros Hp.
  destruct (parse_args_raise w _ Hp) as (code & Hc & -> & P).
  unfold main. rewrite P. unfold trace, outcome. cbn [bind fst snd].
  destruct Hc as [-> | ->]; cbn; repeat split; auto.
Qed.

Lemma parser_exit_skips_the_run_witness :
  main (example_world None (Response [])) [u "--verbose"] =
    (trace (parse_args (example_world None (Response [])) [u "--verbose"]),
     Raise (SystemExit 2)) /\
  printed (trace (main (example_world None (Response [])) [u "--verbose"]))
    = [].
Proof.
  pose proof (@parser_exit_skips_the_run
                (example_world None (Response [])) [u "--verbose"]
                (SystemExit 2)) as T.
  destruct T as (T1 & T2 & _).
  - vm_compute. reflexivity.
  - split; [exact T1|exact T2].
Defined.

(** A client that cannot be constructed: the error of the constructor leaves
    the script before any request, with a traceback and status 1. *)
Example main_client_not_constructed :
  outcome (main no_client_world []) = Raise (Completion (Remote client_error)) /\
  network_calls (trace (main no_client_world [])) = 0%nat /\
  List.length (printed (trace (main no_client_world []))) = 5%nat /\
  exit_status (outcome (main no_client_world [])) = 1%Z.
Proof. repeat (split; [vm_compute; reflexivity|]). vm_compute. reflexivity. Qed.
